(** * A shallow embedding of [practice/prototype_anc_samp_minimal.py]

    The prototype forward-simulates a Wright-Fisher population, buffers the
    nodes and edges of every generation in a [MockAncestryTracker] and, at a
    configured interval, hands them to an [ARGsimplifier] that merges them
    into msprime tables and simplifies these.

    Conventions of the embedding.
    - Python integers are [Z].  Where the source stores a Python integer in
      an array of a fixed integer dtype ([np.uint32] ids, [np.int32] edge
      ends) the wrap-around of that store is written out ([to_uint32],
      [to_int32]); numpy versions that still provide [np.float], which the
      source needs, convert out-of-range Python integers silently.
      In these versions the sum of an integer array and a Python integer
      that fits the dtype of the array keeps that dtype, and wraps as well
      ([add_uint32], [add_int32]).
    - The [generation] column of the buffer holds the integers [gen + 1]
      (stored as floats, exactly); it is a [Z].  The [time] column of the
      msprime tables holds arbitrary floats and is kept abstract.
    - Exceptions are the constructors of [exn]; a computation that may raise
      lives in [result].
    - The script is read as Python 3: [/] is the true division and [round]
      rounds halves to the even integer.
    - numpy's generator and the msprime primitives are parameters of the
      development. *)

From Stdlib Require Import ZArith QArith.
From stdpp Require Import base numbers list list_numbers sorting gmap.

Local Open Scope Z_scope.

(** ** Exceptions *)

Inductive exn : Set :=
  | ZeroDivisionError
  | ValueError
  | IndexError
  | TypeError
  | LibraryError.

Inductive result (A : Type) : Type :=
  | Ok (a : A)
  | Raise (e : exn).

Arguments Ok {A} a.
Arguments Raise {A} e.

#[global] Instance result_ret : MRet result := λ A a, Ok a.
#[global] Instance result_bind : MBind result := λ A B f m,
  match m with
  | Ok a => f a
  | Raise e => Raise e
  end.

Definition succeeds {A} (m : result A) : Prop := ∃ a, m = Ok a.

(** ** Python and numpy primitives on integers and sequences *)

(** [a % b] on Python integers: the sign follows the divisor, as for
    [Z.modulo]; a zero divisor raises. *)
Definition py_mod (a b : Z) : result Z :=
  if decide (b = 0) then Raise ZeroDivisionError else Ok (a mod b).

(** [l[i]] for a list or an array: negative indices count from the end. *)
Definition py_index {A} (l : list A) (i : Z) : result A :=
  let len := Z.of_nat (length l) in
  let j := if decide (i < 0) then i + len else i in
  if decide (0 ≤ j < len)
  then match l !! Z.to_nat j with
       | Some x => Ok x
       | None => Raise IndexError
       end
  else Raise IndexError.

(** [l[i] = x] on an array. *)
Definition py_setitem {A} (l : list A) (i : Z) (x : A) : result (list A) :=
  let len := Z.of_nat (length l) in
  let j := if decide (i < 0) then i + len else i in
  if decide (0 ≤ j < len)
  then Ok (<[Z.to_nat j := x]> l)
  else Raise IndexError.

(** Storing a Python integer in a [np.uint32], respectively [np.int32],
    slot. *)
Definition to_uint32 (x : Z) : Z := x mod 2 ^ 32.
Definition to_int32 (x : Z) : Z := (x + 2 ^ 31) mod 2 ^ 32 - 2 ^ 31.

(** [a + k] for an array [a] of dtype [np.uint32] and a Python integer
    [k], element by element.  A [k] that fits [np.uint32] keeps the dtype
    and the sum wraps; a larger [k] that fits [np.uint64] makes the sum a
    [np.uint64]; a negative [k] makes it a [np.int64], or an object array
    of Python integers when [k] fits no integer dtype, and no sum of an
    [np.uint32] and such a [k] wraps.  For [k = 0] this is the identity,
    as [a + 0] is for an array of any integer dtype. *)
Definition add_uint32 (k x : Z) : Z :=
  if decide (0 < k < 2 ^ 32) then to_uint32 (x + k)
  else if decide (2 ^ 32 ≤ k < 2 ^ 64) then (x + k) mod 2 ^ 64
  else x + k.

(** [a + k] for an array [a] of dtype [np.int32]: a [k] that fits
    [np.int32] keeps the dtype and the sum wraps; any other [k] promotes
    the sum to a wider type, and it is kept as it is. *)
Definition add_int32 (k x : Z) : Z :=
  if decide (- 2 ^ 31 ≤ k < 2 ^ 31) then to_int32 (x + k) else x + k.

(** [np.arange(start, stop, dtype=np.uint32)]. *)
Definition arange_uint32 (start stop : Z) : list Z :=
  to_uint32 <$> seqZ start (stop - start).

(** [a[::2]] and [a[1::2]]. *)
Fixpoint evens {A} (l : list A) : list A :=
  match l with
  | [] => []
  | x :: l' => x :: match l' with [] => [] | _ :: l'' => evens l'' end
  end.

Definition odds {A} (l : list A) : list A :=
  match l with
  | [] => []
  | _ :: l' => evens l'
  end.

(** [x for x in l] where evaluating an element may raise. *)
Fixpoint traverse {A B} (f : A → result B) (l : list A) : result (list B) :=
  match l with
  | [] => Ok []
  | x :: l' => y ← f x; ys ← traverse f l'; Ok (y :: ys)
  end.

(** ** The record types [node_dt] and [edge_dt] *)

Record node : Set := mk_node {
  node_id : Z;
  node_generation : Z;
  node_population : Z
}.

Record edge : Set := mk_edge {
  edge_left : Q;
  edge_right : Q;
  edge_parent : Z;
  edge_child : Z
}.

(** Conversion of a Python tuple to a row of dtype [edge_dt]. *)
Definition as_edge_dt (e : edge) : edge :=
  mk_edge (edge_left e) (edge_right e)
          (to_int32 (edge_parent e)) (to_int32 (edge_child e)).

(** ** [MockAncestryTracker] *)

Record MockAncestryTracker : Set := mk_tracker {
  nodes : list node;
  edges : list edge;
  samples : list Z;
  anc_samples : list Z
}.

Module Tracker.

Definition init : MockAncestryTracker := mk_tracker [] [] [] [].

Definition update_data (self : MockAncestryTracker)
    (new_nodes : list node) (new_edges : list edge)
    (new_samples new_anc_samples : list Z) : MockAncestryTracker :=
  mk_tracker (nodes self ++ new_nodes)
             (edges self ++ (as_edge_dt <$> new_edges))
             new_samples
             (anc_samples self ++ new_anc_samples).

(** [a.max()] raises on an empty array. *)
Definition generation_max (ns : list node) : result Z :=
  match ns with
  | [] => Raise ValueError
  | n :: ns' => Ok (foldr (λ n' m, Z.max (node_generation n') m)
                          (node_generation n) ns')
  end.

Definition set_generation (f : Z → Z) (n : node) : node :=
  mk_node (node_id n) (f (node_generation n)) (node_population n).

Definition convert_time (self : MockAncestryTracker)
    : result MockAncestryTracker :=
  m ← generation_max (nodes self);
  let ns1 := set_generation (λ t, t - m) <$> nodes self in
  let ns2 := set_generation (λ t, t * (-1)) <$> ns1 in
  Ok (mk_tracker ns2 (edges self) (samples self) (anc_samples self)).

Definition reset_data (self : MockAncestryTracker) : MockAncestryTracker :=
  mk_tracker [] [] (samples self) (anc_samples self).

(** [gc_rv] is the pair returned by [ARGsimplifier.__call__]. *)
Definition post_gc_cleanup (self : MockAncestryTracker)
    (gc_rv : bool * option Z) : MockAncestryTracker :=
  if gc_rv.1 then reset_data self else self.

End Tracker.

(** ** The external collaborators *)

(** A row of an msprime [NodeTable]; the row index is the node's id. *)
Record table_node (time : Type) : Type := mk_table_node {
  tn_flags : Z;
  tn_population : Z;
  tn_time : time
}.

Arguments mk_table_node {time} _ _ _.
Arguments tn_flags {time} _.
Arguments tn_population {time} _.
Arguments tn_time {time} _.

(** msprime, as far as the prototype uses it.  [time_shift t d] is the float
    addition [t + d] of [set_columns(time=self.nodes.time + d)],
    [time_of_generation] the identity on the floats of the buffer.
    [simplify_tables] returns the reduced tables and the node map. *)
Class Msprime (time : Type) : Type := {
  time_shift : time → Z → time;
  time_of_generation : Z → time;
  msprime_simulate :
    Z → Z → Z → result (list (table_node time) * list edge);
  sort_tables :
    list (table_node time) → list edge →
    result (list (table_node time) * list edge);
  simplify_tables :
    list Z → list (table_node time) → list edge →
    result (list (table_node time) * list edge * list Z)
}.

(** [np.random], with its global state made explicit.  [random_sample2] is
    [np.random.random_sample(2)]. *)
Class NpRandom (rng : Type) : Type := {
  random_seed : Z → rng;
  random_choice : Z → Z → rng → result (list Z * rng);
  random_randint : Z → Z → Z → rng → result (list Z * rng);
  random_sample2 : rng → Q * Q * rng
}.

(** The command line arguments, the global [args] of the script. *)
Record args : Set := mk_args {
  popsize : Z;
  nsam : Z;
  seed : Z;
  gc : Z
}.

(** ** [ARGsimplifier] *)

Record ARGsimplifier (time : Type) : Type := mk_simplifier {
  s_nodes : list (table_node time);
  s_edges : list edge;
  gc_interval : Z;
  last_gc_time : Z
}.

Arguments mk_simplifier {time} _ _ _ _.
Arguments s_nodes {time} _.
Arguments s_edges {time} _.
Arguments gc_interval {time} _.
Arguments last_gc_time {time} _.

Module Simplifier.
Section with_msprime.
Context {time : Type} `{!Msprime time}.

Definition init (gc_interval : Z) : ARGsimplifier time :=
  mk_simplifier [] [] gc_interval 0.

(** [set_columns(..., time=self.nodes.time + d)]. *)
Definition age (d : Z) (ns : list (table_node time))
    : list (table_node time) :=
  (λ n, mk_table_node (tn_flags n) (tn_population n)
                      (time_shift (tn_time n) d)) <$> ns.

(** The rows appended for the buffered nodes, all flagged [1]. *)
Definition sample_rows (ns : list node) : list (table_node time) :=
  (λ n, mk_table_node 1 (node_population n)
                      (time_of_generation (node_generation n))) <$> ns.

(** [tracker.edges['child'] + node_offset] of line 121, on the [np.int32]
    column of the buffer. *)
Definition offset_child (node_offset : Z) (e : edge) : edge :=
  mk_edge (edge_left e) (edge_right e) (edge_parent e)
          (add_int32 node_offset (edge_child e)).

(** [sorted(set((anc_samples + node_offset).tolist()
                + (samples + node_offset).tolist()), reverse=True)].
    Both arrays are read as [np.uint32] arrays: [tracker.samples] always
    is one, and [tracker.anc_samples] is one until line 132 replaces it
    by entries of a node map, that is at the first collection of a run,
    the only one whose offset is not zero. *)
Definition all_samples (node_offset : Z) (tracker : MockAncestryTracker)
    : list Z :=
  merge_sort Z.ge
    (elements (list_to_set (C := gset Z)
       ((add_uint32 node_offset <$> anc_samples tracker) ++
        (add_uint32 node_offset <$> samples tracker)))).

(** The first part of [simplify]: the tables the new rows are appended
    to, and the node offset. *)
Definition aged_tables (a : args) (generation : Z)
    (self : ARGsimplifier time)
    : result (list (table_node time) * list edge * Z) :=
  if decide (generation = 1) then
    '(prior_nodes, prior_edges) ←
      msprime_simulate (2 * popsize a) (2 * popsize a) (seed a);
    let ns := age generation prior_nodes in
    Ok (ns, prior_edges, Z.of_nat (length ns) - 2 * popsize a)
  else
    let dt := generation - last_gc_time self in
    Ok (age dt (s_nodes self), s_edges self, 0).

Definition simplify (a : args) (generation : Z)
    (self : ARGsimplifier time) (tracker : MockAncestryTracker)
    : result (ARGsimplifier time * MockAncestryTracker * Z) :=
  '(nodes0, edges0, node_offset) ← aged_tables a generation self;
  tracker1 ← Tracker.convert_time tracker;
  let nodes1 := nodes0 ++ sample_rows (nodes tracker1) in
  let edges1 := edges0 ++ (offset_child node_offset <$> edges tracker1) in
  '(nodes2, edges2) ← sort_tables nodes1 edges1;
  '(nodes3, edges3, node_map) ←
    simplify_tables (all_samples node_offset tracker1) nodes2 edges2;
  anc ← traverse (py_index node_map) (anc_samples tracker1);
  Ok (mk_simplifier nodes3 edges3 (gc_interval self) (last_gc_time self),
      mk_tracker (nodes tracker1) (edges tracker1) (samples tracker1) anc,
      Z.of_nat (length nodes3)).

Definition set_last_gc_time (generation : Z) (self : ARGsimplifier time)
    : ARGsimplifier time :=
  mk_simplifier (s_nodes self) (s_edges self) (gc_interval self) generation.

(** The condition of [__call__]; [and] and [or] evaluate left to right,
    so the remainder is taken as soon as [generation > 0]. *)
Definition triggers (generation : Z) (self : ARGsimplifier time)
    : result bool :=
  if decide (generation > 0) then
    m ← py_mod generation (gc_interval self);
    Ok (bool_decide (m = 0) || bool_decide (generation = 1))
  else Ok false.

(** [ARGsimplifier.__call__]. *)
Definition call (a : args) (generation : Z)
    (self : ARGsimplifier time) (tracker : MockAncestryTracker)
    : result (ARGsimplifier time * MockAncestryTracker * (bool * option Z)) :=
  trigger ← triggers generation self;
  if trigger : bool then
    '(self1, tracker1, next_id) ← simplify a generation self tracker;
    Ok (set_last_gc_time generation self1, tracker1, (true, Some next_id))
  else Ok (self, tracker, (false, None)).

End with_msprime.
End Simplifier.

(** ** The driver [wf] *)

(** The variables of [wf] that live across generations. *)
Record wf_state (time rng : Type) : Type := mk_wf_state {
  diploids : list Z;
  next_id : Z;
  ancestral_gen_counter : nat;
  w_simplifier : ARGsimplifier time;
  w_tracker : MockAncestryTracker;
  w_rng : rng
}.

Arguments mk_wf_state {time rng} _ _ _ _ _ _.
Arguments diploids {time rng} _.
Arguments next_id {time rng} _.
Arguments ancestral_gen_counter {time rng} _.
Arguments w_simplifier {time rng} _.
Arguments w_tracker {time rng} _.
Arguments w_rng {time rng} _.

(** The variables of the loop over the chosen parents. *)
Record mating (rng : Type) : Type := mk_mating {
  m_edges : list edge;
  m_new_diploids : list Z;
  m_next_id : Z;
  m_dip : Z;
  m_rng : rng
}.

Arguments mk_mating {rng} _ _ _ _ _.
Arguments m_edges {rng} _.
Arguments m_new_diploids {rng} _.
Arguments m_next_id {rng} _.
Arguments m_dip {rng} _.
Arguments m_rng {rng} _.

Definition SIMLEN : Z := 20.

Module Driver.
Section with_collaborators.
Context {time rng : Type} `{!Msprime time} `{!NpRandom rng}.

(** One iteration of [for parent1, parent2 in zip(...)]. *)
Definition mate (diploids : list Z) (parents : Z * Z) (m : mating rng)
    : result (mating rng) :=
  let '(parent1, parent2) := parents in
  p1g1 ← py_index diploids (2 * parent1);
  p1g2 ← py_index diploids (2 * parent1 + 1);
  p2g1 ← py_index diploids (2 * parent2);
  p2g2 ← py_index diploids (2 * parent2 + 1);
  let '(mendel0, mendel1, g) := random_sample2 (m_rng m) in
  let '(p1g1, p1g2) :=
    if negb (Qle_bool (1 # 2) mendel0) then (p1g2, p1g1) else (p1g1, p1g2) in
  let '(p2g1, p2g2) :=
    if negb (Qle_bool (1 # 2) mendel1) then (p2g2, p2g1) else (p2g1, p2g2) in
  let next_id := m_next_id m in
  let dip := m_dip m in
  let edges1 := m_edges m ++ [mk_edge 0 1 p1g1 next_id] in
  nd1 ← py_setitem (m_new_diploids m) (2 * dip) (to_uint32 next_id);
  let edges2 := edges1 ++ [mk_edge 0 1 p2g1 (next_id + 1)] in
  nd2 ← py_setitem nd1 (2 * dip + 1) (to_uint32 (next_id + 1));
  Ok (mk_mating edges2 nd2 (next_id + 2) (dip + 1) g).

Fixpoint mate_all (diploids : list Z) (pairs : list (Z * Z))
    (m : mating rng) : result (mating rng) :=
  match pairs with
  | [] => Ok m
  | p :: pairs' => m' ← mate diploids p m; mate_all diploids pairs' m'
  end.

(** The test on the retention schedule and, when it holds, the draw of
    the ancestral samples of this generation. *)
Definition scheduled (N : Z) (anc_sample_gen : list (Q * Z)) (gen : Z)
    (next_id : Z) (counter : nat) (g : rng)
    : result (list Z * nat * rng) :=
  match anc_sample_gen !! counter with
  | Some (when, count) =>
      if Qeq_bool (inject_Z (gen + 1)) when then
        '(ran_samples, g') ← random_choice N count g;
        Ok (((λ r, 2 * r + next_id) <$> ran_samples) ++
            ((λ r, 2 * r + 1 + next_id) <$> ran_samples),
            S counter, g')
      else Ok ([], counter, g)
  | None => Ok ([], counter, g)
  end.

(** The part of the loop body after the collection: new nodes, parents,
    edges, and the update of the tracker. *)
Definition offspring (N : Z) (gen : Z) (next_id : Z) (diploids : list Z)
    (ancestral_samples : list Z) (tracker : MockAncestryTracker) (g : rng)
    : result (list Z * Z * MockAncestryTracker * rng) :=
  let new_diploids := replicate (length diploids) 0 in
  _ ← (if decide (2 * N < 0) then Raise ValueError else Ok ());
  let new_nodes :=
    (λ i, mk_node i (gen + 1) 0) <$>
      arange_uint32 next_id (next_id + 2 * N) in
  '(parents, g1) ← random_randint 0 N (2 * N) g;
  m ← mate_all diploids (zip (evens parents) (odds parents))
               (mk_mating [] new_diploids next_id 0 g1);
  Ok (m_new_diploids m, m_next_id m,
      Tracker.update_data tracker new_nodes (m_edges m)
                          (m_new_diploids m) ancestral_samples,
      m_rng m).

(** The body of [for gen in range(ngens)]. *)
Definition generation (a : args) (N : Z) (anc_sample_gen : list (Q * Z))
    (gen : Z) (st : wf_state time rng) : result (wf_state time rng) :=
  '(simplifier1, tracker1, gc_rv) ←
    Simplifier.call a gen (w_simplifier st) (w_tracker st);
  let tracker2 := Tracker.post_gc_cleanup tracker1 gc_rv in
  '(next_id1, diploids1) ←
    (if gc_rv.1 then
       match gc_rv.2 with
       | Some k => Ok (k, arange_uint32 0 (2 * N))
       | None => Raise TypeError
       end
     else Ok (next_id st, diploids st));
  '(ancestral_samples, counter1, g1) ←
    scheduled N anc_sample_gen gen next_id1 (ancestral_gen_counter st)
              (w_rng st);
  '(diploids2, next_id2, tracker3, g2) ←
    offspring N gen next_id1 diploids1 ancestral_samples tracker2 g1;
  Ok (mk_wf_state diploids2 next_id2 counter1 simplifier1 tracker3 g2).

Fixpoint generations (a : args) (N : Z) (anc_sample_gen : list (Q * Z))
    (gens : list Z) (st : wf_state time rng) : result (wf_state time rng) :=
  match gens with
  | [] => Ok st
  | gen :: gens' =>
      st' ← generation a N anc_sample_gen gen st;
      generations a N anc_sample_gen gens' st'
  end.

Definition wf_init (N : Z) (simplifier : ARGsimplifier time)
    (tracker : MockAncestryTracker) (g : rng) : wf_state time rng :=
  let diploids := arange_uint32 0 (2 * N) in
  mk_wf_state diploids (Z.of_nat (length diploids)) 0 simplifier
    (mk_tracker [] (edges tracker) (samples tracker) (anc_samples tracker))
    g.

Definition wf (a : args) (N : Z) (simplifier : ARGsimplifier time)
    (tracker : MockAncestryTracker) (anc_sample_gen : list (Q * Z))
    (ngens : Z) (g : rng) : result (wf_state time rng) :=
  generations a N anc_sample_gen (seqZ 0 ngens)
              (wf_init N simplifier tracker g).

(** [round(p / 200)]: to the nearest integer, halves to the even one. *)
Definition round_div_200 (p : Z) : Z :=
  let q := p `div` 200 in
  let r := p `mod` 200 in
  if decide (r < 100) then q
  else if decide (100 < r) then q + 1
  else if Z.even q then q else q + 1.

Definition schedule (a : args) : list (Q * Z) :=
  let ngens := SIMLEN * popsize a in
  (λ i, (Qmake (ngens * (i + 1)) 20, Z.max (round_div_200 (popsize a)) 1))
    <$> seqZ 0 (SIMLEN - 2).

(** The final collection of the script: whatever is still buffered. *)
Definition flush (a : args) (ngens : Z) (st : wf_state time rng)
    : result (ARGsimplifier time * MockAncestryTracker) :=
  if decide (0 < length (nodes (w_tracker st)))%nat then
    '(simplifier1, tracker1, _) ←
      Simplifier.simplify a ngens (w_simplifier st) (w_tracker st);
    Ok (simplifier1, tracker1)
  else Ok (w_simplifier st, w_tracker st).

(** The script.  [ambient] is the state of [np.random] when the script
    starts; the result is the final node and edge tables and node map. *)
Definition main (a : args) (ambient : rng)
    : result (list (table_node time) * list edge * list Z) :=
  let g := random_seed (seed a) in
  let simplifier := Simplifier.init (gc a) in
  let tracker := Tracker.init in
  let ngens := SIMLEN * popsize a in
  let anc_sample_gen := schedule a in
  st ← wf a (popsize a) simplifier tracker anc_sample_gen ngens g;
  '(simplifier1, tracker1) ← flush a ngens st;
  '(ran_samples, g1) ← random_choice (popsize a) (nsam a) (w_rng st);
  let nsam_samples :=
    merge_sort Z.le (((λ r, 2 * r) <$> ran_samples) ++
                     ((λ r, 2 * r + 1) <$> ran_samples)) in
  let all_samples := nsam_samples ++ anc_samples tracker1 in
  simplify_tables all_samples (s_nodes simplifier1) (s_edges simplifier1).

End with_collaborators.
End Driver.

(** ** Vocabulary of the statements *)

(** No sum of line 129 leaves [np.uint32]: the node offset is zero, or
    every buffered sample id plus the offset lies in [[0, 2^32)]. *)
Definition offset_in_range (node_offset : Z) (tracker : MockAncestryTracker)
    : Prop :=
  node_offset = 0 ∨
  ∀ y, y ∈ anc_samples tracker ∨ y ∈ samples tracker →
       0 ≤ y + node_offset < 2 ^ 32.

(** The collecting branch of [__call__]: simplify, record the generation,
    and report the row count. *)
Definition collect {time : Type} `{!Msprime time} (a : args) (generation : Z)
    (self : ARGsimplifier time) (tracker : MockAncestryTracker)
    : result (ARGsimplifier time * MockAncestryTracker * (bool * option Z)) :=
  '(self1, tracker1, next_id) ← Simplifier.simplify a generation self tracker;
  Ok (Simplifier.set_last_gc_time generation self1, tracker1,
      (true, Some next_id)).

(** The id the first node of a generation gets: the row count returned by
    the collection if one ran, else the running counter. *)
Definition start_id {time rng : Type} (st : wf_state time rng)
    (gc_rv : bool * option Z) : Z :=
  match gc_rv with
  | (true, Some k) => k
  | _ => next_id st
  end.

(** What the driver relies on when it draws the parents:
    [np.random.randint(low, high, size)] returns [size] values of
    [[low, high)]. *)
Definition randint_contract (rng : Type) `{!NpRandom rng} : Prop :=
  ∀ low high size g, low < high → 0 ≤ size →
    ∃ l g', random_randint low high size g = Ok (l, g') ∧
            length l = Z.to_nat size ∧ Forall (λ x, low ≤ x < high) l.

(** What the driver relies on when it draws the retained individuals:
    [np.random.choice(n, k, replace=False)], when it returns, returns [k]
    distinct values of [[0, n)]. *)
Definition choice_contract (rng : Type) `{!NpRandom rng} : Prop :=
  ∀ n k g l g', random_choice n k g = Ok (l, g') →
    length l = Z.to_nat k ∧ Forall (λ r, 0 ≤ r < n) l ∧ NoDup l.

(** What the driver relies on when it renumbers the population after a
    collection: [msprime.simplify_tables], given samples without
    duplicates, gives the sample at position [j] of the list the id [j]. *)
Definition reduction_contract (time : Type) `{!Msprime time} : Prop :=
  ∀ all ns es ns' es' node_map,
    NoDup all →
    simplify_tables all ns es = Ok (ns', es', node_map) →
    ∀ j s, all !! j = Some s → py_index node_map s = Ok (Z.of_nat j).

(** An edge that spans the whole interval. *)
Definition full_interval (e : edge) : Prop :=
  edge_left e = 0%Q ∧ edge_right e = 1%Q.

(** ** Concrete collaborators

    A small msprime and a small generator, used to run the embedding on
    concrete inputs.  The founder ancestry is a star: the samples and one
    common ancestor.  The reduction keeps exactly the sample rows, giving
    the [i]-th sample the id [i], and maps every other node to [-1]. *)

Module Mock.

Definition founder (sample_size : Z)
    : list (table_node Z) * list edge :=
  (replicate (Z.to_nat sample_size) (mk_table_node 1 0 0)
     ++ [mk_table_node 0 0 1],
   (λ i, mk_edge 0 1 sample_size i) <$> seqZ 0 sample_size).

Fixpoint position (x : Z) (l : list Z) (i : Z) : Z :=
  match l with
  | [] => -1
  | y :: l' => if decide (x = y) then i else position x l' (i + 1)
  end.

Definition reduce (samples : list Z) (ns : list (table_node Z))
    (es : list edge)
    : result (list (table_node Z) * list edge * list Z) :=
  rows ← traverse (λ s, if decide (0 ≤ s)
                        then match ns !! Z.to_nat s with
                             | Some row => Ok row
                             | None => Raise LibraryError
                             end
                        else Raise LibraryError) samples;
  Ok (rows, [],
      (λ i, position i samples 0) <$> seqZ 0 (Z.of_nat (length ns))).

#[global] Instance msprime : Msprime Z := {|
  time_shift t d := t + d;
  time_of_generation t := t;
  msprime_simulate sample_size Ne seed :=
    if decide (sample_size < 2) then Raise ValueError
    else Ok (founder sample_size);
  sort_tables ns es := Ok (ns, es);
  simplify_tables := reduce
|}.

(** The generator state is a counter. *)
#[global] Instance np_random : NpRandom Z := {|
  random_seed s := s;
  random_choice n k g :=
    if decide (0 < n ∧ 0 ≤ k ≤ n) then Ok (seqZ 0 k, g + 1)
    else Raise ValueError;
  random_randint low high size g :=
    if decide (low < high ∧ 0 ≤ size)
    then Ok ((λ i, low + (g + i) `mod` (high - low)) <$> seqZ 0 size,
             g + size)
    else Raise ValueError;
  random_sample2 g :=
    (if Z.even g then 1 # 4 else 3 # 4, if Z.even g then 3 # 4 else 1 # 4,
     g + 1)
|}.

End Mock.

(** ** Concrete inputs *)

Module Example.

Definition one_diploid : args := mk_args 1 1 42 2.

Definition two_diploids : args := mk_args 2 1 42 2.

(** The buffer of a population of one diploid after generation 0, whose
    two chromosomes were also retained as ancestral samples. *)
Definition buffer : MockAncestryTracker :=
  mk_tracker [mk_node 2 1 0; mk_node 3 1 0]
             [mk_edge 0 1 0 2; mk_edge 0 1 1 3]
             [2; 3] [2; 3].

(** A driver state whose counter has reached [2^32]: a population of
    one diploid at generation [2^31], collected at generation 1 only.
    Of the buffer only the rows of the last generation are kept here. *)
Definition late_state : wf_state Z Z :=
  mk_wf_state [4294967294; 4294967295] (2 ^ 32) 0
    (mk_simplifier [mk_table_node 1 0 0; mk_table_node 1 0 0] []
                   (2 ^ 40) 1)
    (mk_tracker [mk_node 4294967294 2147483648 0;
                 mk_node 4294967295 2147483648 0]
                [] [4294967294; 4294967295] [])
    0.


Definition rare_collection : args := mk_args 1 1 42 (2 ^ 40).

Definition negative_interval : args := mk_args 1 1 42 (-2).

Definition zero_interval : args := mk_args 1 1 42 0.

End Example.

(** * Properties *)

(** ** The concrete generator keeps the contract of [randint] *)

Lemma Mock_randint_contract : randint_contract Z.
Proof.
  intros low high size g Hlh Hsize. simpl.
  rewrite decide_True by done. do 2 eexists. split; [reflexivity |].
  rewrite length_fmap, length_seqZ. split; [done |].
  rewrite Forall_fmap. apply Forall_forall. intros i _. simpl.
  pose proof (Z.mod_pos_bound (g + i) (high - low)). lia.
Qed.

(** ** The error monad *)

Lemma bind_Ok {A B} (m : result A) (f : A → result B) (b : B) :
  m ≫= f = Ok b ↔ ∃ a, m = Ok a ∧ f a = Ok b.
Proof.
  destruct m as [a|e]; simpl.
  - split; [eauto | intros (a' & [= <-] & ?); done].
  - split; [done | intros (a' & ? & ?); done].
Qed.

Lemma bind_Ok_l {A B} (a : A) (f : A → result B) : Ok a ≫= f = f a.
Proof. reflexivity. Qed.

(** ** [post_gc_cleanup] *)

(** C9: [post_gc_cleanup] empties the buffered nodes and edges exactly when
    the result of the collection it is handed says that a collection ran;
    whether it ran or not, the current samples and the ancestral samples
    are left as they were. *)
Theorem post_gc_cleanup_clears_iff_collected
    (tracker : MockAncestryTracker) (ran : bool) (next : option Z) :
  let tracker' := Tracker.post_gc_cleanup tracker (ran, next) in
  nodes tracker' = (if ran then [] else nodes tracker) ∧
  edges tracker' = (if ran then [] else edges tracker) ∧
  samples tracker' = samples tracker ∧
  anc_samples tracker' = anc_samples tracker.
Proof. by destruct ran. Qed.

(** ** [convert_time] *)

Lemma generation_max_is_max (ns : list node) :
  ns ≠ [] →
  ∃ m, Tracker.generation_max ns = Ok m ∧
       (∃ n, n ∈ ns ∧ node_generation n = m) ∧
       (∀ n, n ∈ ns → node_generation n ≤ m).
Proof.
  destruct ns as [|n0 ns]; [done | intros _].
  eexists; split; [reflexivity |].
  induction ns as [|n1 ns IH]; simpl.
  - split; [exists n0; split; [left | done] |].
    intros n ->%list_elem_of_singleton. lia.
  - destruct IH as [(n & Hn & Hm) Hle].
    set (m := foldr _ _ ns) in *. split.
    + destruct (Z.max_spec (node_generation n1) m) as [[_ ->] | [_ ->]].
      * exists n. split; [| done].
        apply elem_of_cons in Hn as [-> | Hn]; [left | do 2 right; done].
      * exists n1. split; [right; left | done].
    + intros n' Hn'.
      apply elem_of_cons in Hn' as [-> | Hn'].
      { specialize (Hle n0 ltac:(left)). lia. }
      apply elem_of_cons in Hn' as [-> | Hn']; [lia |].
      specialize (Hle n' ltac:(by right)). lia.
Qed.

Lemma convert_time_nodes (tracker tracker' : MockAncestryTracker) (m : Z) :
  Tracker.generation_max (nodes tracker) = Ok m →
  Tracker.convert_time tracker = Ok tracker' →
  nodes tracker' =
    Tracker.set_generation (λ t, m - t) <$> nodes tracker ∧
  edges tracker' = edges tracker ∧
  samples tracker' = samples tracker ∧
  anc_samples tracker' = anc_samples tracker.
Proof.
  unfold Tracker.convert_time. intros -> [= <-]. simpl.
  split; [| done]. rewrite <- list_fmap_compose.
  apply list_fmap_ext. intros _ [i t p] _.
  unfold Tracker.set_generation; simpl. f_equal. lia.
Qed.

Lemma convert_time_succeeds (tracker : MockAncestryTracker) :
  nodes tracker ≠ [] → succeeds (Tracker.convert_time tracker).
Proof.
  intros (m & Hm & _)%generation_max_is_max.
  unfold Tracker.convert_time. rewrite Hm. by eexists.
Qed.

(** C6: on a buffer that holds nodes, [convert_time] returns, and it maps the
    forward time [t] of every buffered node to [m - t], where [m] is the
    largest forward time of the buffer; ids and populations are kept.  So a
    node of largest forward time gets backward time zero, and the order of
    the times of any two nodes is reversed. *)
Theorem convert_time_rebases (tracker : MockAncestryTracker) :
  nodes tracker ≠ [] →
  ∃ m tracker',
    Tracker.convert_time tracker = Ok tracker' ∧
    (∃ n, n ∈ nodes tracker ∧ node_generation n = m) ∧
    (∀ n, n ∈ nodes tracker → node_generation n ≤ m) ∧
    nodes tracker' =
      (λ n, mk_node (node_id n) (m - node_generation n) (node_population n))
        <$> nodes tracker ∧
    (∀ i n n', nodes tracker !! i = Some n → nodes tracker' !! i = Some n' →
       node_generation n = m → node_generation n' = 0) ∧
    (∀ i j ni nj ni' nj',
       nodes tracker !! i = Some ni → nodes tracker !! j = Some nj →
       nodes tracker' !! i = Some ni' → nodes tracker' !! j = Some nj' →
       (node_generation ni < node_generation nj ↔
        node_generation nj' < node_generation ni') ∧
       (node_generation ni ≤ node_generation nj ↔
        node_generation nj' ≤ node_generation ni')).
Proof.
  intros Hne.
  destruct (generation_max_is_max _ Hne) as (m & Hm & Hin & Hle).
  destruct (convert_time_succeeds _ Hne) as [tracker' Hc].
  destruct (convert_time_nodes _ _ _ Hm Hc) as (Hn & _).
  exists m, tracker'. split_and!; try done.
  - intros i n n' Hi Hi' Heq. rewrite Hn, list_lookup_fmap, Hi in Hi'.
    injection Hi' as <-. simpl. lia.
  - intros i j ni nj ni' nj' Hi Hj Hi' Hj'.
    rewrite Hn, list_lookup_fmap in Hi', Hj'.
    rewrite Hi in Hi'. rewrite Hj in Hj'.
    injection Hi' as <-. injection Hj' as <-. simpl. lia.
Qed.

Lemma convert_time_rebases_witness :
  ∃ m tracker',
    Tracker.convert_time
      (mk_tracker [mk_node 4 1 0; mk_node 5 2 0; mk_node 6 3 0] [] [] [])
      = Ok tracker' ∧ m = 3 ∧
    nodes tracker' = [mk_node 4 2 0; mk_node 5 1 0; mk_node 6 0 0].
Proof.
  destruct (convert_time_rebases
    (mk_tracker [mk_node 4 1 0; mk_node 5 2 0; mk_node 6 3 0] [] [] []))
    as (m & tracker' & Hc & _ & _ & Hn & _); [done |].
  exists m, tracker'. split; [exact Hc |].
  vm_compute in Hc. injection Hc as <-. simpl in Hn.
  injection Hn as Hm _. split; [lia | reflexivity].
Defined.

(** ** The sample list of [simplify] *)

#[local] Instance Zge_transitive : Transitive Z.ge.
Proof. intros x y z. lia. Qed.

#[local] Instance Zge_total : Total Z.ge.
Proof. intros x y. lia. Qed.

Lemma StronglySorted_ge_NoDup_gt (l : list Z) :
  StronglySorted Z.ge l → NoDup l → StronglySorted Z.gt l.
Proof.
  induction 1 as [|x l Hs IH Hall]; intros Hnd; [constructor |].
  apply NoDup_cons in Hnd as [Hx Hnd].
  constructor; [by apply IH |].
  rewrite Forall_forall in Hall |- *. intros y Hy.
  specialize (Hall y Hy).
  assert (x ≠ y) by (intros ->; done). lia.
Qed.

Lemma StronglySorted_gt_NoDup (l : list Z) :
  StronglySorted Z.gt l → NoDup l.
Proof.
  induction 1 as [|x l Hs IH Hall]; [constructor |].
  apply NoDup_cons. split; [| done].
  intros Hx. rewrite Forall_forall in Hall. specialize (Hall x Hx). lia.
Qed.

(** A strictly descending list is determined by its elements. *)
Lemma StronglySorted_gt_unique (l1 l2 : list Z) :
  StronglySorted Z.gt l1 → StronglySorted Z.gt l2 →
  (∀ x, x ∈ l1 ↔ x ∈ l2) → l1 = l2.
Proof.
  intros H1 H2 Heq.
  apply (StronglySorted_unique_strong Z.gt); [| done | done |].
  - intros x y _ _ ? ?. lia.
  - apply NoDup_Permutation; auto using StronglySorted_gt_NoDup.
Qed.

Section all_samples.
Context {time : Type} `{!Msprime time}.

Lemma elem_of_all_samples (node_offset : Z) (tracker : MockAncestryTracker)
    (x : Z) :
  x ∈ Simplifier.all_samples node_offset tracker ↔
  ∃ y, (y ∈ anc_samples tracker ∨ y ∈ samples tracker) ∧
       x = add_uint32 node_offset y.
Proof.
  unfold Simplifier.all_samples.
  rewrite merge_sort_Permutation, elem_of_elements, elem_of_list_to_set.
  rewrite elem_of_app, !list_elem_of_fmap. split.
  - intros [(y & -> & Hy) | (y & -> & Hy)]; exists y; auto.
  - intros (y & [Hy | Hy] & ->); [left | right]; by exists y.
Qed.

Lemma add_uint32_exact (k x : Z) :
  k = 0 ∨ 0 ≤ x + k < 2 ^ 32 → add_uint32 k x = x + k.
Proof.
  intros Hk. unfold add_uint32, to_uint32.
  repeat case_decide; [| | done]; apply Z.mod_small; lia.
Qed.

Lemma elem_of_all_samples_exact (node_offset : Z)
    (tracker : MockAncestryTracker) (x : Z) :
  offset_in_range node_offset tracker →
  x ∈ Simplifier.all_samples node_offset tracker ↔
  ∃ y, (y ∈ anc_samples tracker ∨ y ∈ samples tracker) ∧
       x = y + node_offset.
Proof.
  intros Hrange. rewrite elem_of_all_samples.
  assert (∀ y, y ∈ anc_samples tracker ∨ y ∈ samples tracker →
               add_uint32 node_offset y = y + node_offset) as Hexact.
  { intros y Hy. apply add_uint32_exact.
    destruct Hrange as [-> | Hrange]; [by left | right; by apply Hrange]. }
  split; intros (y & Hy & ->); exists y; (split; [done |]);
    by rewrite Hexact.
Qed.

Lemma NoDup_all_samples (node_offset : Z) (tracker : MockAncestryTracker) :
  NoDup (Simplifier.all_samples node_offset tracker).
Proof.
  unfold Simplifier.all_samples.
  rewrite merge_sort_Permutation. apply NoDup_elements.
Qed.

Lemma all_samples_descending (node_offset : Z)
    (tracker : MockAncestryTracker) :
  StronglySorted Z.gt (Simplifier.all_samples node_offset tracker).
Proof.
  apply StronglySorted_ge_NoDup_gt; [| apply NoDup_all_samples].
  apply (StronglySorted_merge_sort Z.ge).
Qed.

(** What a successful [simplify] went through. *)
Lemma simplify_Ok (a : args) (generation : Z) (self self' : ARGsimplifier time)
    (tracker tracker' : MockAncestryTracker) (rows : Z) :
  Simplifier.simplify a generation self tracker = Ok (self', tracker', rows) ↔
  ∃ nodes0 edges0 node_offset tracker1 nodes2 edges2 nodes3 edges3
    node_map anc,
    Simplifier.aged_tables a generation self
      = Ok (nodes0, edges0, node_offset) ∧
    Tracker.convert_time tracker = Ok tracker1 ∧
    sort_tables (nodes0 ++ Simplifier.sample_rows (nodes tracker1))
                (edges0 ++ (Simplifier.offset_child node_offset
                              <$> edges tracker1))
      = Ok (nodes2, edges2) ∧
    simplify_tables (Simplifier.all_samples node_offset tracker1)
                    nodes2 edges2
      = Ok (nodes3, edges3, node_map) ∧
    traverse (py_index node_map) (anc_samples tracker1) = Ok anc ∧
    self' = mk_simplifier nodes3 edges3 (gc_interval self)
                          (last_gc_time self) ∧
    tracker' = mk_tracker (nodes tracker1) (edges tracker1)
                          (samples tracker1) anc ∧
    rows = Z.of_nat (length nodes3).
Proof.
  unfold Simplifier.simplify. split.
  - intros H.
    apply bind_Ok in H as ([[nodes0 edges0] node_offset] & H0 & H).
    apply bind_Ok in H as (tracker1 & H1 & H).
    apply bind_Ok in H as ([nodes2 edges2] & H2 & H).
    apply bind_Ok in H as ([[nodes3 edges3] node_map] & H3 & H).
    apply bind_Ok in H as (anc & H4 & H).
    simplify_eq.
    by exists nodes0, edges0, node_offset, tracker1, nodes2, edges2,
              nodes3, edges3, node_map, anc.
  - intros (nodes0 & edges0 & node_offset & tracker1 & nodes2 & edges2 &
            nodes3 & edges3 & node_map & anc &
            H0 & H1 & H2 & H3 & H4 & -> & -> & ->).
    rewrite H0; simpl. rewrite H1; simpl. rewrite H2; simpl.
    rewrite H3; simpl. by rewrite H4.
Qed.

End all_samples.




(** ** [__call__] *)

Section call.
Context {time : Type} `{!Msprime time}.

Lemma triggers_nonzero (generation : Z) (self : ARGsimplifier time) :
  gc_interval self ≠ 0 →
  Simplifier.triggers generation self =
    Ok (bool_decide (generation > 0 ∧
          (generation `mod` gc_interval self = 0 ∨ generation = 1))).
Proof.
  intros Hgc. unfold Simplifier.triggers, py_mod.
  destruct (decide (generation > 0)) as [Hg | Hg].
  - rewrite decide_False by done. simpl. f_equal.
    repeat case_bool_decide; simpl; try done; exfalso; lia.
  - rewrite bool_decide_eq_false_2; [done | lia].
Qed.

Lemma triggers_zero (generation : Z) (self : ARGsimplifier time) :
  gc_interval self = 0 →
  Simplifier.triggers generation self =
    if decide (generation > 0) then Raise ZeroDivisionError else Ok false.
Proof.
  intros Hgc. unfold Simplifier.triggers, py_mod.
  destruct (decide (generation > 0)); [| done].
  by rewrite decide_True.
Qed.

Lemma call_unfold (a : args) (generation : Z) (self : ARGsimplifier time)
    (tracker : MockAncestryTracker) (b : bool) :
  Simplifier.triggers generation self = Ok b →
  Simplifier.call a generation self tracker =
    if b then collect a generation self tracker
    else Ok (self, tracker, (false, None)).
Proof. unfold Simplifier.call. by intros ->. Qed.

End call.

(** C2, as the code has it: for every generation and every interval other
    than zero, [__call__] collects exactly when [generation > 0] and
    ([generation mod interval = 0] or [generation = 1]); in every other case
    it returns [(False, None)] and hands back the simplifier (tables and
    time of the last collection) and the buffer as they were.  With the
    interval zero it returns [(False, None)] for [generation <= 0] and
    raises [ZeroDivisionError] for every [generation > 0]. *)
Theorem call_collects_iff {time : Type} `{!Msprime time}
    (a : args) (generation : Z) (self : ARGsimplifier time)
    (tracker : MockAncestryTracker) :
  (gc_interval self ≠ 0 →
   Simplifier.call a generation self tracker =
     if decide (generation > 0 ∧
                (generation `mod` gc_interval self = 0 ∨ generation = 1))
     then collect a generation self tracker
     else Ok (self, tracker, (false, None))) ∧
  (gc_interval self = 0 →
   Simplifier.call a generation self tracker =
     if decide (generation > 0) then Raise ZeroDivisionError
     else Ok (self, tracker, (false, None))).
Proof.
  split; intros Hgc.
  - rewrite (call_unfold _ _ _ _ _ (triggers_nonzero generation self Hgc)).
    by case_bool_decide; [rewrite decide_True | rewrite decide_False].
  - unfold Simplifier.call. rewrite (triggers_zero generation self Hgc).
    by destruct (decide (generation > 0)).
Qed.

Lemma call_collects_iff_witness :
  (gc_interval (Simplifier.init (time := Z) 2) ≠ 0 ∧
   Simplifier.call Example.one_diploid 3 (Simplifier.init 2) Example.buffer
     = Ok (Simplifier.init 2, Example.buffer, (false, None))) ∧
  (gc_interval (Simplifier.init (time := Z) 0) = 0 ∧
   Simplifier.call Example.one_diploid 0 (Simplifier.init 0) Example.buffer
     = Ok (Simplifier.init 0, Example.buffer, (false, None))).
Proof.
  split; (split; [done |]).
  - rewrite (proj1 (call_collects_iff Example.one_diploid 3
                      (Simplifier.init 2) Example.buffer)); done.
  - rewrite (proj2 (call_collects_iff Example.one_diploid 0
                      (Simplifier.init 0) Example.buffer)); done.
Defined.

(** C2 as stated fails for the interval zero: at generation 2 the condition
    of the claim is false, and at generation 1 it is true and a collection
    would succeed; [__call__] does neither of the two things the claim
    allows, it raises. *)
Lemma call_zero_interval_raises :
  let self := Simplifier.init (time := Z) 0 in
  ¬ (2 > 0 ∧ (2 `mod` gc_interval self = 0 ∨ 2 = 1)) ∧
  Simplifier.call Example.one_diploid 2 self Example.buffer
    = Raise ZeroDivisionError ∧
  Simplifier.call Example.one_diploid 2 self Example.buffer
    ≠ Ok (self, Example.buffer, (false, None)) ∧
  (1 > 0 ∧ (1 `mod` gc_interval self = 0 ∨ 1 = 1)) ∧
  succeeds (collect Example.one_diploid 1 self Example.buffer) ∧
  Simplifier.call Example.one_diploid 1 self Example.buffer
    = Raise ZeroDivisionError ∧
  Simplifier.call Example.one_diploid 1 self Example.buffer
    ≠ collect Example.one_diploid 1 self Example.buffer.
Proof.
  simpl. split_and!; try done.
  - intros [_ [? | ?]]; done.
  - lia.
  - by eexists.
Qed.

(** ** One generation of the driver *)

Lemma zip_evens_odds {A} (P : A → Prop) (k : nat) (l : list A) :
  length l = (2 * k)%nat → Forall P l →
  length (zip (evens l) (odds l)) = k ∧
  Forall (λ p, P p.1 ∧ P p.2) (zip (evens l) (odds l)).
Proof.
  revert l. induction k as [|k IH]; intros l Hlen Hall.
  - destruct l; [by split | done].
  - destruct l as [|x [|y l]]; [done | simpl in Hlen; lia |].
    apply Forall_cons in Hall as [Hx Hall].
    apply Forall_cons in Hall as [Hy Hall].
    destruct (IH l) as [IH1 IH2]; [simpl in Hlen; lia | done |].
    change (zip (evens (x :: y :: l)) (odds (x :: y :: l)))
      with ((x, y) :: zip (evens l) (odds l)).
    split; [simpl; lia | by constructor].
Qed.

Lemma py_index_in_range {A} (l : list A) (i : Z) :
  0 ≤ i < Z.of_nat (length l) → succeeds (py_index l i).
Proof.
  intros Hi. unfold py_index.
  destruct (decide (i < 0)); [lia |]. rewrite decide_True by lia.
  destruct (lookup_lt_is_Some_2 l (Z.to_nat i)) as [x ->]; [lia |].
  by eexists.
Qed.

Lemma py_setitem_in_range {A} (l : list A) (i : Z) (x : A) :
  0 ≤ i < Z.of_nat (length l) →
  py_setitem l i x = Ok (<[Z.to_nat i := x]> l).
Proof.
  intros Hi. unfold py_setitem.
  destruct (decide (i < 0)); [lia |]. by rewrite decide_True by lia.
Qed.

Section generation.
Context {time rng : Type} `{!Msprime time} `{!NpRandom rng}.

Lemma mate_in_range (N : Z) (diploids : list Z) (parent1 parent2 : Z)
    (m : mating rng) :
  length diploids = Z.to_nat (2 * N) →
  0 ≤ parent1 < N → 0 ≤ parent2 < N →
  0 ≤ m_dip m → 2 * m_dip m + 1 < Z.of_nat (length (m_new_diploids m)) →
  ∃ e1 e2 nd g,
    Driver.mate diploids (parent1, parent2) m
      = Ok (mk_mating (m_edges m ++ [e1; e2]) nd (m_next_id m + 2)
                      (m_dip m + 1) g) ∧
    full_interval e1 ∧ full_interval e2 ∧
    edge_child e1 = m_next_id m ∧ edge_child e2 = m_next_id m + 1 ∧
    length nd = length (m_new_diploids m).
Proof.
  intros Hlen H1 H2 Hd0 Hd. unfold Driver.mate.
  destruct (py_index_in_range diploids (2 * parent1)) as [a1 ->]; [lia |].
  destruct (py_index_in_range diploids (2 * parent1 + 1)) as [a2 ->];
    [lia |].
  destruct (py_index_in_range diploids (2 * parent2)) as [b1 ->]; [lia |].
  destruct (py_index_in_range diploids (2 * parent2 + 1)) as [b2 ->];
    [lia |].
  simpl. destruct (random_sample2 (m_rng m)) as [[mendel0 mendel1] g].
  destruct (negb (Qle_bool (1 # 2) mendel0));
    destruct (negb (Qle_bool (1 # 2) mendel1));
    (rewrite py_setitem_in_range by lia; simpl;
     rewrite py_setitem_in_range by (rewrite length_insert; lia); simpl;
     rewrite <- app_assoc; simpl;
     do 4 eexists; split; [reflexivity |];
     rewrite !length_insert; done).
Qed.

Lemma mate_all_in_range (N : Z) (diploids : list Z) (pairs : list (Z * Z))
    (m : mating rng) :
  length diploids = Z.to_nat (2 * N) →
  Forall (λ p, (0 ≤ p.1 < N) ∧ (0 ≤ p.2 < N)) pairs →
  0 ≤ m_dip m →
  2 * (m_dip m + Z.of_nat (length pairs))
    ≤ Z.of_nat (length (m_new_diploids m)) →
  ∃ es nd g,
    Driver.mate_all diploids pairs m
      = Ok (mk_mating (m_edges m ++ es) nd
                      (m_next_id m + 2 * Z.of_nat (length pairs))
                      (m_dip m + Z.of_nat (length pairs)) g) ∧
    length es = (2 * length pairs)%nat ∧
    Forall full_interval es ∧
    edge_child <$> es = seqZ (m_next_id m) (2 * Z.of_nat (length pairs)) ∧
    length nd = length (m_new_diploids m).
Proof.
  intros Hlen. revert m.
  induction pairs as [|[parent1 parent2] pairs IH]; intros m Hall Hd0 Hd.
  - exists [], (m_new_diploids m), (m_rng m). destruct m; simpl.
    rewrite app_nil_r, !Z.add_0_r. by rewrite seqZ_nil.
  - apply Forall_cons in Hall as [[H1 H2] Hall]. simpl in H1, H2.
    rewrite length_cons in Hd.
    destruct (mate_in_range N diploids parent1 parent2 m)
      as (e1 & e2 & nd1 & g1 & Hm & Hf1 & Hf2 & Hc1 & Hc2 & Hnd1);
      [done | done | done | done | lia |].
    cbn [Driver.mate_all]. rewrite Hm, bind_Ok_l.
    destruct (IH (mk_mating (m_edges m ++ [e1; e2]) nd1 (m_next_id m + 2)
                            (m_dip m + 1) g1))
      as (es & nd & g & Hms & Hes & Hfull & Hch & Hnd);
      [done | cbn [m_dip]; lia | cbn [m_dip m_new_diploids]; lia |].
    cbn [m_edges m_new_diploids m_next_id m_dip m_rng] in *.
    rewrite Hms. exists (e1 :: e2 :: es), nd, g.
    rewrite <- app_assoc. cbn [app length]. split_and!.
    + do 2 f_equal; lia.
    + lia.
    + apply Forall_cons_2; [done | by apply Forall_cons_2].
    + rewrite fmap_cons, fmap_cons, Hch, Hc1, Hc2.
      rewrite (seqZ_cons (m_next_id m)) by lia.
      rewrite (seqZ_cons (Z.succ (m_next_id m))) by lia.
      do 3 f_equal; lia.
    + congruence.
Qed.

End generation.

Section generation_total.
Context {time rng : Type} `{!Msprime time} `{!NpRandom rng}.

Lemma offspring_succeeds (N gen next_id : Z) (diploids anc : list Z)
    (tracker : MockAncestryTracker) (g : rng) :
  0 < N → randint_contract rng → length diploids = Z.to_nat (2 * N) →
  ∃ new_diploids new_edges g',
    Driver.offspring N gen next_id diploids anc tracker g
      = Ok (new_diploids, next_id + 2 * N,
            mk_tracker
              (nodes tracker ++
               ((λ i, mk_node (to_uint32 i) (gen + 1) 0)
                  <$> seqZ next_id (2 * N)))
              (edges tracker ++ new_edges) new_diploids
              (anc_samples tracker ++ anc),
            g') ∧
    length new_diploids = Z.to_nat (2 * N) ∧
    length new_edges = Z.to_nat (2 * N) ∧
    Forall full_interval new_edges ∧
    edge_child <$> new_edges = to_int32 <$> seqZ next_id (2 * N).
Proof.
  intros HN Hrand Hlen. unfold Driver.offspring.
  rewrite decide_False by lia. rewrite bind_Ok_l.
  destruct (Hrand 0 N (2 * N) g) as (parents & g1 & -> & Hpl & Hpr);
    [lia | lia |].
  rewrite bind_Ok_l.
  destruct (zip_evens_odds (λ x, 0 ≤ x < N) (Z.to_nat N) parents)
    as [Hzl Hzr]; [lia | done |].
  destruct (mate_all_in_range N diploids
              (zip (evens parents) (odds parents))
              (mk_mating [] (replicate (length diploids) 0) next_id 0 g1))
    as (es & nd & g' & -> & Hes & Hfull & Hch & Hnd);
    [done | done | done
    | cbn [m_dip m_new_diploids]; rewrite length_replicate; lia |].
  cbn [m_edges m_new_diploids m_next_id m_dip m_rng] in *.
  rewrite bind_Ok_l.
  cbn [m_edges m_new_diploids m_next_id m_dip m_rng].
  rewrite Hzl in *. rewrite length_replicate in Hnd.
  replace (2 * Z.of_nat (Z.to_nat N)) with (2 * N) in * by lia.
  exists nd, (as_edge_dt <$> es), g'. split_and!.
  - unfold Tracker.update_data, arange_uint32.
    replace (next_id + 2 * N - next_id) with (2 * N) by lia.
    by rewrite <- list_fmap_compose.
  - lia.
  - rewrite length_fmap. lia.
  - rewrite Forall_fmap. by eapply Forall_impl.
  - rewrite <- Hch, <- !list_fmap_compose. done.
Qed.

Lemma call_rv (a : args) (gen : Z) (self self1 : ARGsimplifier time)
    (tracker tracker1 : MockAncestryTracker) (gc_rv : bool * option Z) :
  Simplifier.call a gen self tracker = Ok (self1, tracker1, gc_rv) →
  gc_rv = (false, None) ∨ ∃ k, gc_rv = (true, Some k).
Proof.
  unfold Simplifier.call. intros ([] & _ & H)%bind_Ok.
  - apply bind_Ok in H as ([[? ?] k] & _ & [= <- <- <-]). eauto.
  - injection H as <- <- <-. by left.
Qed.

(** A generation goes through once the collection and the draw of the
    ancestral samples have. *)
Lemma generation_succeeds (a : args) (N gen : Z)
    (anc_sample_gen : list (Q * Z)) (st : wf_state time rng)
    (self1 : ARGsimplifier time) (tracker1 : MockAncestryTracker)
    (gc_rv : bool * option Z) (anc : list Z) (counter1 : nat) (g1 : rng) :
  0 < N → randint_contract rng →
  length (diploids st) = Z.to_nat (2 * N) →
  Simplifier.call a gen (w_simplifier st) (w_tracker st)
    = Ok (self1, tracker1, gc_rv) →
  Driver.scheduled N anc_sample_gen gen (start_id st gc_rv)
                   (ancestral_gen_counter st) (w_rng st)
    = Ok (anc, counter1, g1) →
  ∃ new_diploids new_edges g2,
    Driver.generation a N anc_sample_gen gen st
      = Ok (mk_wf_state new_diploids (start_id st gc_rv + 2 * N) counter1
              self1
              (mk_tracker
                 (nodes (Tracker.post_gc_cleanup tracker1 gc_rv) ++
                  ((λ i, mk_node (to_uint32 i) (gen + 1) 0)
                     <$> seqZ (start_id st gc_rv) (2 * N)))
                 (edges (Tracker.post_gc_cleanup tracker1 gc_rv)
                    ++ new_edges)
                 new_diploids
                 (anc_samples (Tracker.post_gc_cleanup tracker1 gc_rv)
                    ++ anc))
              g2) ∧
    length new_diploids = Z.to_nat (2 * N) ∧
    length new_edges = Z.to_nat (2 * N) ∧
    Forall full_interval new_edges ∧
    edge_child <$> new_edges
      = to_int32 <$> seqZ (start_id st gc_rv) (2 * N).
Proof.
  intros HN Hrand Hlen Hcall Hsched. unfold Driver.generation.
  rewrite Hcall, bind_Ok_l.
  set (dip1 := if gc_rv.1 then arange_uint32 0 (2 * N) else diploids st).
  assert (length dip1 = Z.to_nat (2 * N)) as Hdip1.
  { unfold dip1. destruct (gc_rv.1); [| done].
    unfold arange_uint32. rewrite length_fmap, length_seqZ. f_equal; lia. }
  assert ((if gc_rv.1
           then match gc_rv.2 with
                | Some k => Ok (k, arange_uint32 0 (2 * N))
                | None => Raise TypeError
                end
           else Ok (next_id st, diploids st))
          = Ok (start_id st gc_rv, dip1)) as ->.
  { unfold dip1.
    by destruct (call_rv _ _ _ _ _ _ _ Hcall) as [-> | [k ->]]. }
  rewrite bind_Ok_l, Hsched, bind_Ok_l.
  destruct (offspring_succeeds N gen (start_id st gc_rv) dip1 anc
              (Tracker.post_gc_cleanup tracker1 gc_rv) g1)
    as (nd & es & g2 & -> & Hnd & Hes & Hfull & Hch); [done..|].
  rewrite bind_Ok_l. by exists nd, es, g2.
Qed.

End generation_total.

(** ** Node ids and the counter [next_id] *)

(** C7, as the code has it: in every generation that gets past the
    collection and the draw of the ancestral samples, the driver appends
    exactly [2N] nodes and exactly [2N] edges to the buffer, every edge
    spans [[0, 1)], and [next_id] ends [2N] above the id the generation
    started from.  The ids of the new nodes are the range
    [[start, start + 2N)] stored as [np.uint32], that is reduced modulo
    [2^32]; they are that contiguous increasing range itself whenever
    [0 <= start] and [start + 2N <= 2^32]. *)
Theorem generation_creates_2N {time rng : Type} `{!Msprime time}
    `{!NpRandom rng} (a : args) (N gen : Z) (anc_sample_gen : list (Q * Z))
    (st : wf_state time rng) (self1 : ARGsimplifier time)
    (tracker1 : MockAncestryTracker) (gc_rv : bool * option Z)
    (anc : list Z) (counter1 : nat) (g1 : rng) :
  0 < N → randint_contract rng →
  length (diploids st) = Z.to_nat (2 * N) →
  Simplifier.call a gen (w_simplifier st) (w_tracker st)
    = Ok (self1, tracker1, gc_rv) →
  Driver.scheduled N anc_sample_gen gen (start_id st gc_rv)
                   (ancestral_gen_counter st) (w_rng st)
    = Ok (anc, counter1, g1) →
  ∃ st' new_nodes new_edges,
    Driver.generation a N anc_sample_gen gen st = Ok st' ∧
    nodes (w_tracker st')
      = nodes (Tracker.post_gc_cleanup tracker1 gc_rv) ++ new_nodes ∧
    edges (w_tracker st')
      = edges (Tracker.post_gc_cleanup tracker1 gc_rv) ++ new_edges ∧
    length new_nodes = Z.to_nat (2 * N) ∧
    length new_edges = Z.to_nat (2 * N) ∧
    Forall full_interval new_edges ∧
    next_id st' = start_id st gc_rv + 2 * N ∧
    node_id <$> new_nodes
      = (λ i, i `mod` 2 ^ 32) <$> seqZ (start_id st gc_rv) (2 * N) ∧
    (0 ≤ start_id st gc_rv → start_id st gc_rv + 2 * N ≤ 2 ^ 32 →
     node_id <$> new_nodes = seqZ (start_id st gc_rv) (2 * N)) ∧
    length (diploids st') = Z.to_nat (2 * N).
Proof.
  intros HN Hrand Hlen Hcall Hsched.
  destruct (generation_succeeds a N gen anc_sample_gen st self1 tracker1
              gc_rv anc counter1 g1 HN Hrand Hlen Hcall Hsched)
    as (nd & es & g2 & Hgen & Hnd & Hes & Hfull & _).
  eexists _, _, es. split; [exact Hgen |]. simpl.
  assert (node_id <$> ((λ i, mk_node (to_uint32 i) (gen + 1) 0)
                         <$> seqZ (start_id st gc_rv) (2 * N))
          = (λ i, i `mod` 2 ^ 32) <$> seqZ (start_id st gc_rv) (2 * N))
    as Hids by (by rewrite <- list_fmap_compose).
  split_and!; try done.
  - rewrite length_fmap, length_seqZ. done.
  - intros H0 Hmax. rewrite Hids.
    rewrite <- (list_fmap_id (seqZ _ _)) at 2.
    apply list_fmap_ext. intros i x Hx.
    apply lookup_seqZ in Hx as [-> Hi]. simpl.
    apply Z.mod_small. lia.
Qed.

Lemma generation_creates_2N_witness :
  let st := Driver.wf_init 1 (Simplifier.init 2) Tracker.init 0 in
  0 < 1 ∧ length (diploids st) = Z.to_nat (2 * 1) ∧
  ∃ st', Driver.generation Example.one_diploid 1 [] 0 st = Ok st' ∧
         next_id st' = 4 ∧
         node_id <$> nodes (w_tracker st') = [2; 3].
Proof.
  intros st. split; [lia |]. split; [reflexivity |].
  destruct (generation_creates_2N Example.one_diploid 1 0 [] st
              (Simplifier.init 2) (w_tracker st) (false, None) [] 0%nat 0)
    as (st' & new_nodes & new_edges & Hgen & Hnodes & _ & _ & _ & _ &
        Hnext & _ & Hids & _);
    [lia | exact Mock_randint_contract | reflexivity | reflexivity
    | reflexivity |].
  exists st'. split; [exact Hgen |]. split; [exact Hnext |].
  rewrite Hnodes. simpl. apply Hids; simpl; lia.
Defined.

(** C7 as stated fails once the counter has reached [2^32]: the two nodes
    of the generation are stored with the ids 0 and 1, which is not the
    range that starts at [next_id]. *)
Lemma generation_ids_wrap :
  ∃ st',
    Driver.generation Example.rare_collection 1 [] 2147483648
                      Example.late_state = Ok st' ∧
    node_id <$> drop 2 (nodes (w_tracker st')) = [0; 1] ∧
    node_id <$> drop 2 (nodes (w_tracker st'))
      ≠ seqZ (next_id Example.late_state) (2 * 1).
Proof. eexists. split; [vm_compute; reflexivity |]. by vm_compute. Qed.

(** C5, as the code has it: [next_id] is an unbounded integer that is set
    to the row count returned by the collection when one ran and is carried
    over otherwise, and to which the generation adds exactly [2N]; so it is
    not monotone across collections.  No range check is made: a generation
    that gets past the collection and the draw of the ancestral samples
    goes through whatever the magnitude of [next_id], and the ids are
    stored in the [np.uint32] column reduced modulo [2^32]. *)
Theorem next_id_reset_not_checked {time rng : Type} `{!Msprime time}
    `{!NpRandom rng} (a : args) (N gen : Z) (anc_sample_gen : list (Q * Z))
    (st : wf_state time rng) (self1 : ARGsimplifier time)
    (tracker1 : MockAncestryTracker) (gc_rv : bool * option Z)
    (anc : list Z) (counter1 : nat) (g1 : rng) :
  0 < N → randint_contract rng →
  length (diploids st) = Z.to_nat (2 * N) →
  Simplifier.call a gen (w_simplifier st) (w_tracker st)
    = Ok (self1, tracker1, gc_rv) →
  Driver.scheduled N anc_sample_gen gen (start_id st gc_rv)
                   (ancestral_gen_counter st) (w_rng st)
    = Ok (anc, counter1, g1) →
  ∃ st' new_nodes,
    Driver.generation a N anc_sample_gen gen st = Ok st' ∧
    next_id st' =
      match gc_rv with
      | (true, Some rows) => rows + 2 * N
      | _ => next_id st + 2 * N
      end ∧
    (gc_rv = (false, None) ∨ ∃ rows, gc_rv = (true, Some rows)) ∧
    nodes (w_tracker st')
      = nodes (Tracker.post_gc_cleanup tracker1 gc_rv) ++ new_nodes ∧
    node_id <$> new_nodes
      = (λ i, i `mod` 2 ^ 32) <$> seqZ (next_id st' - 2 * N) (2 * N).
Proof.
  intros HN Hrand Hlen Hcall Hsched.
  destruct (generation_succeeds a N gen anc_sample_gen st self1 tracker1
              gc_rv anc counter1 g1 HN Hrand Hlen Hcall Hsched)
    as (nd & es & g2 & Hgen & _).
  eexists _, _. split; [exact Hgen |]. simpl.
  pose proof (call_rv _ _ _ _ _ _ _ Hcall) as Hrv.
  split_and!; try done.
  - by destruct Hrv as [-> | [k ->]].
  - rewrite <- list_fmap_compose. f_equal. f_equal. lia.
Qed.

Lemma next_id_reset_not_checked_witness :
  ∃ st',
    Driver.generation Example.rare_collection 1 [] 2147483648
                      Example.late_state = Ok st' ∧
    next_id st' = 2 ^ 32 + 2.
Proof.
  destruct (next_id_reset_not_checked Example.rare_collection 1 2147483648
              [] Example.late_state (w_simplifier Example.late_state)
              (w_tracker Example.late_state) (false, None) [] 0%nat 0)
    as (st' & new_nodes & Hgen & Hnext & _);
    [lia | exact Mock_randint_contract | reflexivity | reflexivity
    | reflexivity |].
  exists st'. split; [exact Hgen | exact Hnext].
Defined.

(** C5 as stated fails twice.  The counter is not monotone: with a
    collection every third generation it is 6 after generation 2 and 4
    after generation 3.  And a generation whose ids exceed the [np.uint32]
    range is not aborted: it returns, with the ids stored as 0 and 1. *)
Lemma next_id_decreases_and_wraps :
  (∃ st3 st4,
     Driver.wf (mk_args 1 1 42 3) 1 (Simplifier.init 3) Tracker.init [] 3 0
       = Ok st3 ∧
     Driver.wf (mk_args 1 1 42 3) 1 (Simplifier.init 3) Tracker.init [] 4 0
       = Ok st4 ∧
     next_id st3 = 6 ∧ next_id st4 = 4) ∧
  (∃ st',
     Driver.generation Example.rare_collection 1 [] 2147483648
                       Example.late_state = Ok st' ∧
     2 ^ 32 - 1 < next_id Example.late_state ∧
     next_id st' = 2 ^ 32 + 2 ∧
     diploids st' = [0; 1] ∧
     node_id <$> drop 2 (nodes (w_tracker st')) = [0; 1]).
Proof.
  split.
  - do 2 eexists. split_and!; [vm_compute; reflexivity.. | |]; reflexivity.
  - eexists. split; [vm_compute; reflexivity |]. by vm_compute.
Qed.

(** ** The remap of the ancestral samples *)

Lemma traverse_Ok {A B} (f : A → result B) (l : list A) (l' : list B) :
  traverse f l = Ok l' ↔ Forall2 (λ x y, f x = Ok y) l l'.
Proof.
  revert l'. induction l as [|x l IH]; intros l'; simpl.
  - split; [intros [= <-]; constructor | by intros ->%Forall2_nil_inv_l].
  - rewrite bind_Ok. split.
    + intros (y & Hy & (ys & Hys & [= <-])%bind_Ok).
      constructor; [done | by apply IH].
    + intros (y & ys & Hy & Hys & ->)%Forall2_cons_inv_l.
      exists y. split; [done |]. apply bind_Ok. exists ys.
      split; [by apply IH | done].
Qed.

Lemma py_index_succeeds {A} (l : list A) (i : Z) :
  - Z.of_nat (length l) ≤ i < Z.of_nat (length l) → succeeds (py_index l i).
Proof.
  intros Hi. unfold py_index.
  set (j := if decide (i < 0) then i + Z.of_nat (length l) else i).
  assert (0 ≤ j < Z.of_nat (length l)) as Hj
    by (unfold j; destruct (decide (i < 0)); lia).
  rewrite decide_True by done.
  destruct (lookup_lt_is_Some_2 l (Z.to_nat j)) as [x ->]; [lia |].
  by eexists.
Qed.

Lemma traverse_succeeds {A B} (f : A → result B) (l : list A) :
  Forall (λ x, succeeds (f x)) l → succeeds (traverse f l).
Proof.
  induction 1 as [|x l [y Hy] _ [ys Hys]]; simpl; [by eexists |].
  rewrite Hy, bind_Ok_l, Hys, bind_Ok_l. by eexists.
Qed.

(** C4, as the code has it: the remap step replaces every stored ancestral
    sample id by the entry of the returned node map at that id (the id as
    stored, indexed as Python indexes an array), whatever that entry is: an
    entry that is the null sentinel [-1] is stored like any other, and no
    error is raised for it.  The step goes through whenever every stored id
    is a valid index of the node map. *)
Theorem remap_stores_images_unchecked {time : Type} `{!Msprime time}
    (a : args) (generation : Z) (self : ARGsimplifier time)
    (tracker : MockAncestryTracker) :
  (∀ node_map : list Z,
     Forall (λ i, - Z.of_nat (length node_map) ≤ i
                  < Z.of_nat (length node_map)) (anc_samples tracker) →
     ∃ anc,
       traverse (py_index node_map) (anc_samples tracker) = Ok anc ∧
       Forall2 (λ old new, py_index node_map old = Ok new)
               (anc_samples tracker) anc) ∧
  (∀ self' tracker' rows,
     Simplifier.simplify a generation self tracker
       = Ok (self', tracker', rows) →
     ∃ all ns es node_map,
       simplify_tables all ns es
         = Ok (s_nodes self', s_edges self', node_map) ∧
       Forall2 (λ old new, py_index node_map old = Ok new)
               (anc_samples tracker) (anc_samples tracker')).
Proof.
  split.
  - intros node_map Hall.
    destruct (traverse_succeeds (py_index node_map) (anc_samples tracker))
      as [anc Hanc].
    { eapply Forall_impl; [exact Hall |].
      intros i Hi. by apply py_index_succeeds. }
    exists anc. split; [done | by apply traverse_Ok].
  - intros self' tracker' rows
      (nodes0 & edges0 & node_offset & tracker1 & nodes2 & edges2 &
       nodes3 & edges3 & node_map & anc &
       H0 & H1 & H2 & H3 & H4 & -> & -> & ->)%simplify_Ok.
    exists (Simplifier.all_samples node_offset tracker1), nodes2, edges2,
           node_map.
    split; [done |]. simpl. apply traverse_Ok.
    unfold Tracker.convert_time in H1.
    apply bind_Ok in H1 as (m & _ & [= <-]). done.
Qed.

Lemma remap_stores_images_unchecked_witness :
  ∃ anc,
    traverse (py_index [-1; -1; -1; 1; 0]) (anc_samples Example.buffer)
      = Ok anc ∧
    anc = [-1; 1].
Proof.
  destruct (remap_stores_images_unchecked (time := Z) Example.one_diploid 1
              (Simplifier.init 2) Example.buffer) as [Hremap _].
  destruct (Hremap [-1; -1; -1; 1; 0]) as (anc & Hanc & _).
  { repeat (apply Forall_cons_2; [simpl; lia |]). apply Forall_nil_2. }
  exists anc. split; [exact Hanc |].
  vm_compute in Hanc. by injection Hanc.
Defined.

(** C4 as stated fails: at the first collection of a population of one
    diploid whose two chromosomes are ancestral samples, the stored id 2 is
    mapped to the null sentinel by the returned node map; [simplify]
    returns, and the ancestral samples now hold the sentinel. *)
Lemma null_sentinel_stored :
  ∃ self' tracker' rows ns es node_map,
    Simplifier.simplify Example.one_diploid 1 (Simplifier.init 2)
                        Example.buffer
      = Ok (self', tracker', rows) ∧
    simplify_tables (Simplifier.all_samples 1 Example.buffer) ns es
      = Ok (s_nodes self', s_edges self', node_map) ∧
    2 ∈ anc_samples Example.buffer ∧
    py_index node_map 2 = Ok (-1) ∧
    anc_samples tracker' = [-1; 1].
Proof.
  eexists _, _, _,
    [mk_table_node 1 0 1; mk_table_node 1 0 1; mk_table_node 0 0 2;
     mk_table_node 1 0 0; mk_table_node 1 0 0],
    [mk_edge 0 1 2 0; mk_edge 0 1 2 1; mk_edge 0 1 0 3; mk_edge 0 1 1 4],
    [-1; -1; -1; 1; 0].
  split; [vm_compute; reflexivity |].
  split; [vm_compute; reflexivity |].
  split; [by left |]. split; reflexivity.
Qed.

(** ** Intervals that are not positive, and the final collection *)

Section flush.
Context {time rng : Type} `{!Msprime time} `{!NpRandom rng}.

Lemma offspring_Ok_nodes (N gen next_id : Z) (diploids anc : list Z)
    (tracker tracker' : MockAncestryTracker) (g g' : rng)
    (new_diploids : list Z) (next_id' : Z) :
  Driver.offspring N gen next_id diploids anc tracker g
    = Ok (new_diploids, next_id', tracker', g') →
  ∃ new_nodes, nodes tracker' = nodes tracker ++ new_nodes ∧
               length new_nodes = Z.to_nat (2 * N).
Proof.
  unfold Driver.offspring. intros H.
  apply bind_Ok in H as (_ & _ & H).
  apply bind_Ok in H as ([parents g1] & _ & H).
  apply bind_Ok in H as (m & _ & H).
  injection H as _ _ <- _. eexists. split; [reflexivity |].
  unfold arange_uint32. rewrite !length_fmap, length_seqZ. f_equal. lia.
Qed.

Lemma generation_Ok_nodes (a : args) (N gen : Z)
    (anc_sample_gen : list (Q * Z)) (st st' : wf_state time rng) :
  0 < N → Driver.generation a N anc_sample_gen gen st = Ok st' →
  nodes (w_tracker st') ≠ [].
Proof.
  intros HN. unfold Driver.generation. intros H.
  apply bind_Ok in H as ([[self1 tracker1] gc_rv] & _ & H).
  apply bind_Ok in H as ([next_id1 diploids1] & _ & H).
  apply bind_Ok in H as ([[anc counter1] g1] & _ & H).
  apply bind_Ok in H as ([[[diploids2 next_id2] tracker3] g2] & Hoff & H).
  injection H as <-. simpl.
  apply offspring_Ok_nodes in Hoff as (new_nodes & -> & Hlen).
  intros [_ ->]%app_eq_nil. simpl in Hlen. lia.
Qed.

Lemma generations_Ok_nodes (a : args) (N : Z)
    (anc_sample_gen : list (Q * Z)) (gens : list Z)
    (st st' : wf_state time rng) :
  0 < N → gens ≠ [] →
  Driver.generations a N anc_sample_gen gens st = Ok st' →
  nodes (w_tracker st') ≠ [].
Proof.
  intros HN. revert st.
  induction gens as [|gen gens IH]; intros st Hne H; [done |].
  simpl in H. apply bind_Ok in H as (st1 & H1 & H).
  destruct gens as [|gen' gens].
  - injection H as <-. by eapply generation_Ok_nodes.
  - by eapply IH.
Qed.

Lemma generation_zero_keeps_simplifier (a : args) (N : Z)
    (anc_sample_gen : list (Q * Z)) (st st' : wf_state time rng) :
  Driver.generation a N anc_sample_gen 0 st = Ok st' →
  w_simplifier st' = w_simplifier st.
Proof.
  unfold Driver.generation.
  assert (Simplifier.call a 0 (w_simplifier st) (w_tracker st)
          = Ok (w_simplifier st, w_tracker st, (false, None))) as ->
    by reflexivity.
  rewrite bind_Ok_l. cbn [fst snd]. rewrite bind_Ok_l. intros H.
  apply bind_Ok in H as ([[anc counter1] g1] & _ & H).
  apply bind_Ok in H as ([[[diploids2 next_id2] tracker3] g2] & _ & H).
  by injection H as <-.
Qed.

Lemma wf_zero_interval_raises (a : args) (N : Z)
    (simplifier : ARGsimplifier time) (tracker : MockAncestryTracker)
    (anc_sample_gen : list (Q * Z)) (ngens : Z) (g : rng) :
  gc_interval simplifier = 0 → 2 ≤ ngens →
  ∃ e, Driver.wf a N simplifier tracker anc_sample_gen ngens g = Raise e.
Proof.
  intros Hgc Hn. unfold Driver.wf.
  rewrite (seqZ_cons 0) by lia. rewrite (seqZ_cons (Z.succ 0)) by lia.
  cbn [Driver.generations].
  destruct (Driver.generation a N anc_sample_gen 0 _) as [st0|e] eqn:H0;
    [| by exists e].
  rewrite bind_Ok_l.
  apply generation_zero_keeps_simplifier in H0. simpl in H0.
  exists ZeroDivisionError.
  unfold Driver.generation at 1, Simplifier.call.
  rewrite triggers_zero by congruence. done.
Qed.

End flush.

(** C3, as the code has it.  A negative interval does not disable the
    collection and raises no division error: for [generation > 0],
    [__call__] collects exactly when the absolute value of the interval
    divides the generation or the generation is 1.  With the interval zero
    every call with [generation > 0] raises [ZeroDivisionError], so that a
    run of two or more generations raises, and so does the script for a
    positive population size, before it reaches the final collection.  Whenever the loop of the driver returns, for a positive
    population size and at least one generation, the buffer holds nodes and
    the final collection is the call of [simplify]. *)
Theorem nonpositive_interval {time rng : Type} `{!Msprime time}
    `{!NpRandom rng} (a : args) (N generation : Z)
    (self : ARGsimplifier time) (tracker : MockAncestryTracker)
    (anc_sample_gen : list (Q * Z)) (ngens : Z) (g : rng) :
  (gc_interval self < 0 → 0 < generation →
   ((Z.abs (gc_interval self) | generation) ∨ generation = 1 →
    Simplifier.call a generation self tracker
      = collect a generation self tracker) ∧
   (¬ ((Z.abs (gc_interval self) | generation) ∨ generation = 1) →
    Simplifier.call a generation self tracker
      = Ok (self, tracker, (false, None)))) ∧
  (gc_interval self = 0 → 0 < generation →
   Simplifier.call a generation self tracker = Raise ZeroDivisionError) ∧
  (gc_interval self = 0 → 2 ≤ ngens →
   ∃ e, Driver.wf a N self tracker anc_sample_gen ngens g = Raise e) ∧
  (gc a = 0 → 0 < popsize a → ∃ e, Driver.main a g = Raise e) ∧
  (∀ st final, 0 < N → 0 < ngens →
     Driver.wf a N self tracker anc_sample_gen ngens g = Ok st →
     nodes (w_tracker st) ≠ [] ∧
     Driver.flush a final st =
       '(self1, tracker1, _) ←
         Simplifier.simplify a final (w_simplifier st) (w_tracker st);
       Ok (self1, tracker1)).
Proof.
  split_and!.
  - intros Hgc Hgen.
    rewrite (call_unfold _ _ _ _ _
               (triggers_nonzero generation self ltac:(lia))).
    assert (generation `mod` gc_interval self = 0
            ↔ (Z.abs (gc_interval self) | generation)) as Hdiv.
    { rewrite Z.divide_abs_l. apply Z.mod_divide. lia. }
    rewrite <- Hdiv. split; intros Hc.
    + rewrite bool_decide_eq_true_2; [done | lia].
    + rewrite bool_decide_eq_false_2; [done | lia].
  - intros Hgc Hgen. unfold Simplifier.call.
    rewrite triggers_zero by done. by rewrite decide_True by lia.
  - apply wf_zero_interval_raises.
  - intros Hgc Hpop. unfold Driver.main.
    destruct (wf_zero_interval_raises a (popsize a) (Simplifier.init (gc a))
                Tracker.init (Driver.schedule a) (SIMLEN * popsize a)
                (random_seed (seed a))) as [e ->];
      [done | unfold SIMLEN; lia |].
    by exists e.
  - intros st final HN Hn Hwf.
    assert (nodes (w_tracker st) ≠ []) as Hne.
    { eapply generations_Ok_nodes; [exact HN | | exact Hwf].
      rewrite (seqZ_cons 0) by lia. done. }
    split; [done |]. unfold Driver.flush.
    rewrite decide_True; [done |].
    destruct (nodes (w_tracker st)); [done | simpl; lia].
Qed.

Lemma nonpositive_interval_witness :
  Simplifier.call Example.negative_interval 4 (Simplifier.init (-2))
                  Example.buffer
    = collect Example.negative_interval 4 (Simplifier.init (-2))
              Example.buffer ∧
  Simplifier.call Example.negative_interval 3 (Simplifier.init (-2))
                  Example.buffer
    = Ok (Simplifier.init (-2), Example.buffer, (false, None)) ∧
  Simplifier.call Example.zero_interval 3 (Simplifier.init 0) Example.buffer
    = Raise ZeroDivisionError ∧
  (∃ e, Driver.wf Example.zero_interval 1 (Simplifier.init 0) Tracker.init
                  [] 3 0 = Raise e) ∧
  (∃ st, Driver.wf Example.negative_interval 1 (Simplifier.init (-2))
                   Tracker.init [] 3 0 = Ok st ∧
         Driver.flush Example.negative_interval 3 st =
           '(self1, tracker1, _) ←
             Simplifier.simplify Example.negative_interval 3
                                 (w_simplifier st) (w_tracker st);
           Ok (self1, tracker1)).
Proof.
  split_and!.
  - apply (nonpositive_interval Example.negative_interval 1 4
             (Simplifier.init (-2)) Example.buffer [] 3 0);
      [simpl; lia | lia |]. left. by exists 2.
  - apply (nonpositive_interval Example.negative_interval 1 3
             (Simplifier.init (-2)) Example.buffer [] 3 0);
      [simpl; lia | lia |].
    intros [[k Hk] | ?]; [| done]. simpl in Hk. lia.
  - apply (nonpositive_interval Example.zero_interval 1 3
             (Simplifier.init 0) Example.buffer [] 3 0); [done | lia].
  - apply (nonpositive_interval Example.zero_interval 1 3
             (Simplifier.init 0) Tracker.init [] 3 0); [done | lia].
  - destruct (Driver.wf Example.negative_interval 1 (Simplifier.init (-2))
                        Tracker.init [] 3 0) as [st|e] eqn:Hwf;
      [| vm_compute in Hwf; discriminate].
    exists st. split; [reflexivity |].
    apply (nonpositive_interval Example.negative_interval 1 3
             (Simplifier.init (-2)) Tracker.init [] 3 0);
      [lia | lia | exact Hwf].
Defined.

(** C3 as stated fails on both sides.  With the interval zero, the call at
    generation 1 raises, and so does the script, before any final
    collection.  With the interval [-2], the call at generation 2 collects. *)
Lemma nonpositive_interval_raises_or_collects :
  Simplifier.call Example.zero_interval 1 (Simplifier.init 0) Example.buffer
    = Raise ZeroDivisionError ∧
  Driver.main Example.zero_interval 0 = Raise ZeroDivisionError ∧
  ∃ st self' tracker' rows,
    Driver.wf Example.negative_interval 1 (Simplifier.init (-2))
              Tracker.init [] 2 0 = Ok st ∧
    Simplifier.call Example.negative_interval 2 (w_simplifier st)
                    (w_tracker st)
      = Ok (self', tracker', (true, Some rows)).
Proof.
  split; [reflexivity |]. split; [by vm_compute |].
  do 4 eexists. split; vm_compute; reflexivity.
Qed.

(** ** The retention schedule *)

Section schedule.
Context {time rng : Type} `{!Msprime time} `{!NpRandom rng}.

Lemma scheduled_take (N : Z) (anc_sample_gen : list (Q * Z)) (gen : Z)
    (next_id : Z) (counter k : nat) (g : rng) (when : Q) (count : Z) :
  (counter ≤ k)%nat →
  anc_sample_gen !! k = Some (when, count) →
  ¬ (inject_Z (gen + 1) == when)%Q →
  Driver.scheduled N anc_sample_gen gen next_id counter g
    = Driver.scheduled N (take k anc_sample_gen) gen next_id counter g ∧
  ∀ anc counter' g',
    Driver.scheduled N anc_sample_gen gen next_id counter g
      = Ok (anc, counter', g') →
    (counter' ≤ k)%nat.
Proof.
  intros Hle Hk Hne. unfold Driver.scheduled.
  destruct (decide (counter = k)) as [-> | Hlt].
  - rewrite Hk, lookup_take_ge by lia.
    destruct (Qeq_bool (inject_Z (gen + 1)) when) eqn:Heq;
      [by apply Qeq_bool_iff in Heq |].
    split; [done |]. by intros anc counter' g' [= _ <- _].
  - rewrite lookup_take_lt by lia. split; [done |].
    intros anc counter' g'.
    destruct (anc_sample_gen !! counter) as [[when' count']|];
      [| intros [= _ <- _]; lia].
    destruct (Qeq_bool _ when'); [| intros [= _ <- _]; lia].
    intros ([ran g1] & _ & [= _ <- _])%bind_Ok. lia.
Qed.

Lemma generation_take (a : args) (N : Z) (anc_sample_gen : list (Q * Z))
    (gen : Z) (st : wf_state time rng) (k : nat) (when : Q) (count : Z) :
  (ancestral_gen_counter st ≤ k)%nat →
  anc_sample_gen !! k = Some (when, count) →
  ¬ (inject_Z (gen + 1) == when)%Q →
  Driver.generation a N anc_sample_gen gen st
    = Driver.generation a N (take k anc_sample_gen) gen st ∧
  ∀ st', Driver.generation a N anc_sample_gen gen st = Ok st' →
         (ancestral_gen_counter st' ≤ k)%nat.
Proof.
  intros Hle Hk Hne. unfold Driver.generation.
  destruct (Simplifier.call a gen (w_simplifier st) (w_tracker st))
    as [[[self1 tracker1] gc_rv]|e]; [| done].
  rewrite !bind_Ok_l.
  destruct (if gc_rv.1 then _ else _) as [[next_id1 diploids1]|e];
    [| done].
  rewrite !bind_Ok_l.
  destruct (scheduled_take N anc_sample_gen gen next_id1
              (ancestral_gen_counter st) k (w_rng st) when count
              Hle Hk Hne) as [<- Hcounter].
  split; [done |]. intros st' H.
  apply bind_Ok in H as ([[anc counter1] g1] & Hs & H).
  apply bind_Ok in H as ([[[diploids2 next_id2] tracker3] g2] & _ & H).
  injection H as <-. simpl. by eapply Hcounter.
Qed.

Lemma generations_take (a : args) (N : Z) (anc_sample_gen : list (Q * Z))
    (gens : list Z) (st : wf_state time rng) (k : nat) (when : Q)
    (count : Z) :
  (ancestral_gen_counter st ≤ k)%nat →
  anc_sample_gen !! k = Some (when, count) →
  Forall (λ gen, ¬ (inject_Z (gen + 1) == when)%Q) gens →
  Driver.generations a N anc_sample_gen gens st
    = Driver.generations a N (take k anc_sample_gen) gens st ∧
  ∀ st', Driver.generations a N anc_sample_gen gens st = Ok st' →
         (ancestral_gen_counter st' ≤ k)%nat.
Proof.
  intros Hle Hk. revert st Hle.
  induction gens as [|gen gens IH]; intros st Hle Hall; simpl.
  - split; [done |]. by intros st' [= <-].
  - apply Forall_cons in Hall as [Hgen Hall].
    destruct (generation_take a N anc_sample_gen gen st k when count
                Hle Hk Hgen) as [<- Hcounter].
    destruct (Driver.generation a N anc_sample_gen gen st) as [st1|e];
      [| done].
    rewrite !bind_Ok_l. apply IH; [by apply Hcounter | done].
Qed.

End schedule.

(** C10: if the generation value of the [k]-th entry of the schedule equals
    [gen + 1] for no simulated generation [gen] of [[0, ngens)], the run is
    the run with the schedule cut off before that entry: the same result or
    the same exception, so that the entry raises nothing, never fires, and
    no later entry fires; the schedule pointer never passes [k]. *)
Theorem unmatched_entry_blocks_schedule {time rng : Type} `{!Msprime time}
    `{!NpRandom rng} (a : args) (N : Z) (simplifier : ARGsimplifier time)
    (tracker : MockAncestryTracker) (anc_sample_gen : list (Q * Z))
    (ngens : Z) (g : rng) (k : nat) (when : Q) (count : Z) :
  anc_sample_gen !! k = Some (when, count) →
  (∀ gen, 0 ≤ gen < ngens → ¬ (inject_Z (gen + 1) == when)%Q) →
  Driver.wf a N simplifier tracker anc_sample_gen ngens g
    = Driver.wf a N simplifier tracker (take k anc_sample_gen) ngens g ∧
  ∀ st, Driver.wf a N simplifier tracker anc_sample_gen ngens g = Ok st →
        (ancestral_gen_counter st ≤ k)%nat.
Proof.
  intros Hk Hnever. unfold Driver.wf.
  apply (generations_take _ _ _ _ _ _ when count); [simpl; lia | done |].
  apply Forall_forall. intros gen Hgen%elem_of_seqZ. apply Hnever. lia.
Qed.

Lemma unmatched_entry_blocks_schedule_witness :
  Driver.wf Example.one_diploid 1 (Simplifier.init 2) Tracker.init
            [(5 # 2, 1); (2 # 1, 1)] 3 0
    = Driver.wf Example.one_diploid 1 (Simplifier.init 2) Tracker.init
                [] 3 0 ∧
  ∃ st, Driver.wf Example.one_diploid 1 (Simplifier.init 2) Tracker.init
                  [(5 # 2, 1); (2 # 1, 1)] 3 0 = Ok st ∧
        ancestral_gen_counter st = 0%nat.
Proof.
  destruct (unmatched_entry_blocks_schedule Example.one_diploid 1
              (Simplifier.init 2) Tracker.init [(5 # 2, 1); (2 # 1, 1)]
              3 0 0 (5 # 2) 1) as [Heq Hcounter]; [reflexivity | |].
  { intros gen Hgen. unfold Qeq, inject_Z. simpl. lia. }
  split; [exact Heq |].
  destruct (Driver.wf Example.one_diploid 1 (Simplifier.init 2) Tracker.init
              [(5 # 2, 1); (2 # 1, 1)] 3 0) as [st|e] eqn:Hwf;
    [| vm_compute in Hwf; discriminate].
  exists st. split; [reflexivity |].
  specialize (Hcounter st eq_refl). lia.
Defined.

(** * Further properties of the code *)

(** ** [convert_time] beyond one application *)

(** X1: On a buffer that holds nodes, [convert_time] leaves every time
    non-negative and touches nothing but the times: ids, populations,
    edges and both sample arrays are as before. *)
Theorem convert_time_nonnegative_frame (tracker : MockAncestryTracker) :
  nodes tracker ≠ [] →
  ∃ tracker',
    Tracker.convert_time tracker = Ok tracker' ∧
    Forall (λ n, 0 ≤ node_generation n) (nodes tracker') ∧
    length (nodes tracker') = length (nodes tracker) ∧
    node_id <$> nodes tracker' = node_id <$> nodes tracker ∧
    node_population <$> nodes tracker' = node_population <$> nodes tracker ∧
    edges tracker' = edges tracker ∧
    samples tracker' = samples tracker ∧
    anc_samples tracker' = anc_samples tracker.
Proof.
  intros Hne.
  destruct (generation_max_is_max _ Hne) as (m & Hm & _ & Hle).
  destruct (convert_time_succeeds _ Hne) as [tracker' Hc].
  destruct (convert_time_nodes _ _ _ Hm Hc) as (Hn & He & Hs & Ha).
  exists tracker'. rewrite Hn. split_and!; try done.
  - rewrite Forall_fmap. apply Forall_forall. intros n Hin. simpl.
    specialize (Hle n Hin). lia.
  - by rewrite length_fmap.
  - rewrite <- list_fmap_compose. by apply list_fmap_ext.
  - rewrite <- list_fmap_compose. by apply list_fmap_ext.
Qed.

Lemma convert_time_nonnegative_frame_witness :
  ∃ tracker',
    Tracker.convert_time Example.buffer = Ok tracker' ∧
    Forall (λ n, 0 ≤ node_generation n) (nodes tracker').
Proof.
  destruct (convert_time_nonnegative_frame Example.buffer)
    as (tracker' & Hc & Hpos & _); [done |].
  by exists tracker'.
Defined.

(** X2: [convert_time] is not idempotent: a second application does not keep
    the backward times, it turns them into the forward times counted from
    the smallest one.  So the buffer is as before the two applications
    exactly when its smallest forward time is zero. *)
Theorem convert_time_twice (tracker : MockAncestryTracker) :
  nodes tracker ≠ [] →
  ∃ lo tracker1 tracker2,
    Tracker.convert_time tracker = Ok tracker1 ∧
    Tracker.convert_time tracker1 = Ok tracker2 ∧
    (∃ n, n ∈ nodes tracker ∧ node_generation n = lo) ∧
    (∀ n, n ∈ nodes tracker → lo ≤ node_generation n) ∧
    nodes tracker2 =
      (λ n, mk_node (node_id n) (node_generation n - lo) (node_population n))
        <$> nodes tracker ∧
    (nodes tracker2 = nodes tracker ↔ lo = 0).
Proof.
  intros Hne.
  destruct (generation_max_is_max _ Hne) as (m & Hm & _ & _).
  destruct (convert_time_succeeds _ Hne) as [tracker1 Hc1].
  destruct (convert_time_nodes _ _ _ Hm Hc1) as (Hn1 & _).
  assert (nodes tracker1 ≠ []) as Hne1.
  { rewrite Hn1. by intros ?%fmap_nil_inv. }
  destruct (generation_max_is_max _ Hne1) as (m1 & Hm1 & Hin1 & Hle1).
  destruct (convert_time_succeeds _ Hne1) as [tracker2 Hc2].
  destruct (convert_time_nodes _ _ _ Hm1 Hc2) as (Hn2 & _).
  rewrite Hn1 in Hin1, Hle1.
  destruct Hin1 as (n1 & (n0 & -> & Hn0)%list_elem_of_fmap & Hn1m).
  simpl in Hn1m.
  assert (∀ n, n ∈ nodes tracker →
               node_generation n0 ≤ node_generation n) as Hlo.
  { intros n Hn.
    specialize (Hle1 (Tracker.set_generation (λ t, m - t) n)
                  ltac:(by apply list_elem_of_fmap_2)).
    simpl in Hle1. lia. }
  assert (nodes tracker2 =
          (λ n, mk_node (node_id n)
                        (node_generation n - node_generation n0)
                        (node_population n)) <$> nodes tracker) as Hn2'.
  { rewrite Hn2, Hn1, <- list_fmap_compose.
    apply list_fmap_ext. intros _ [i t q] _.
    unfold Tracker.set_generation. simpl. f_equal. lia. }
  exists (node_generation n0), tracker1, tracker2.
  split_and!; try done; [by exists n0 |].
  rewrite Hn2'. split.
  - intros Heq.
    apply list_elem_of_lookup in Hn0 as [i Hi].
    apply (f_equal (λ l, node_generation <$> l !! i)) in Heq.
    rewrite list_lookup_fmap, Hi in Heq. simpl in Heq.
    injection Heq. lia.
  - intros ->. rewrite <- (list_fmap_id (nodes tracker)) at 2.
    apply list_fmap_ext. intros _ [i t q] _. simpl. f_equal. lia.
Qed.

Lemma convert_time_twice_witness :
  ∃ lo tracker1 tracker2,
    Tracker.convert_time
      (mk_tracker [mk_node 4 1 0; mk_node 5 2 0; mk_node 6 3 0] [] [] [])
      = Ok tracker1 ∧
    Tracker.convert_time tracker1 = Ok tracker2 ∧ lo = 1 ∧
    nodes tracker2 = [mk_node 4 0 0; mk_node 5 1 0; mk_node 6 2 0].
Proof.
  destruct (convert_time_twice
    (mk_tracker [mk_node 4 1 0; mk_node 5 2 0; mk_node 6 3 0] [] [] []))
    as (lo & tracker1 & tracker2 & H1 & H2 & _ & _ & Hn & _); [done |].
  exists lo, tracker1, tracker2. split; [exact H1 |]. split; [exact H2 |].
  vm_compute in H1. injection H1 as <-.
  vm_compute in H2. injection H2 as <-.
  simpl in Hn. injection Hn as Hlo _. split; [lia | reflexivity].
Defined.

(** ** [simplify] and [__call__]: what is kept, what is raised *)

Section simplify_frame.
Context {time rng : Type} `{!Msprime time} `{!NpRandom rng}.

Lemma traverse_length {A B} (f : A → result B) (l : list A) (l' : list B) :
  traverse f l = Ok l' → length l' = length l.
Proof. intros H%traverse_Ok. symmetry. by eapply Forall2_length. Qed.

Lemma call_Ok (a : args) (gen : Z) (self self1 : ARGsimplifier time)
    (tracker tracker1 : MockAncestryTracker) (gc_rv : bool * option Z) :
  Simplifier.call a gen self tracker = Ok (self1, tracker1, gc_rv) →
  (gc_rv = (false, None) ∧ self1 = self ∧ tracker1 = tracker) ∨
  (∃ self2 rows,
     Simplifier.simplify a gen self tracker = Ok (self2, tracker1, rows) ∧
     self1 = Simplifier.set_last_gc_time gen self2 ∧
     gc_rv = (true, Some rows)).
Proof.
  unfold Simplifier.call. intros ([] & _ & H)%bind_Ok.
  - apply bind_Ok in H as ([[self2 tracker2] rows] & Hs & H).
    simplify_eq. right. by exists self2, rows.
  - simplify_eq. by left.
Qed.

End simplify_frame.

(** X3: A collection of an empty buffer never goes through: [simplify] raises
    ([ValueError] of [max()] once the tables were aged), and so does
    [__call__] whenever its condition holds.  The test on
    [len(tracker.nodes)] is what keeps the final collection of the script
    from raising: on an empty buffer it hands back the simplifier and the
    tracker untouched. *)
Theorem simplify_empty_buffer_raises {time rng : Type} `{!Msprime time}
    `{!NpRandom rng} (a : args) (generation : Z)
    (self : ARGsimplifier time) (tracker : MockAncestryTracker)
    (st : wf_state time rng) :
  nodes tracker = [] →
  (∃ e, Simplifier.simplify a generation self tracker = Raise e) ∧
  (∀ x, Simplifier.aged_tables a generation self = Ok x →
        Simplifier.simplify a generation self tracker = Raise ValueError) ∧
  (Simplifier.triggers generation self = Ok true →
   ∃ e, Simplifier.call a generation self tracker = Raise e) ∧
  (nodes (w_tracker st) = [] →
   Driver.flush a generation st = Ok (w_simplifier st, w_tracker st)).
Proof.
  intros Hnil.
  assert (Tracker.convert_time tracker = Raise ValueError) as Hc
    by (unfold Tracker.convert_time; by rewrite Hnil).
  assert (∀ x, Simplifier.aged_tables a generation self = Ok x →
            Simplifier.simplify a generation self tracker = Raise ValueError)
    as Haged.
  { intros [[nodes0 edges0] node_offset] Hx. unfold Simplifier.simplify.
    by rewrite Hx, bind_Ok_l, Hc. }
  assert (∃ e, Simplifier.simplify a generation self tracker = Raise e)
    as [e He].
  { destruct (Simplifier.aged_tables a generation self) as [x|e] eqn:Hx.
    - exists ValueError. by eapply Haged.
    - exists e. unfold Simplifier.simplify. by rewrite Hx. }
  split_and!; [by exists e | done | |].
  - intros Ht. exists e. unfold Simplifier.call. by rewrite Ht, bind_Ok_l, He.
  - intros Hst. unfold Driver.flush. rewrite Hst. done.
Qed.

Lemma simplify_empty_buffer_raises_witness :
  Simplifier.simplify Example.one_diploid 1 (Simplifier.init 2) Tracker.init
    = Raise ValueError ∧
  Driver.flush Example.one_diploid 20
               (Driver.wf_init 1 (Simplifier.init 2) Tracker.init 0)
    = Ok (Simplifier.init 2, Tracker.init).
Proof.
  destruct (simplify_empty_buffer_raises Example.one_diploid 1
              (Simplifier.init 2) Tracker.init
              (Driver.wf_init 1 (Simplifier.init 2) Tracker.init 0))
    as (_ & Haged & _ & _); [reflexivity |].
  destruct (simplify_empty_buffer_raises Example.one_diploid 20
              (Simplifier.init 2) Tracker.init
              (Driver.wf_init 1 (Simplifier.init 2) Tracker.init 0))
    as (_ & _ & _ & Hflush); [reflexivity |].
  split; [by eapply Haged | by apply Hflush].
Defined.

(** X4: A collection that goes through changes, in the buffer, only the times
    of the nodes and the values of the ancestral samples: the current
    samples and the buffered edges are as before, the buffered nodes keep
    their number, ids and populations, and there are as many ancestral
    samples as before (they are remapped, never dropped).  In the
    simplifier the interval and the time of the last collection are as
    before, and the count returned is the length of the new node table. *)
Theorem simplify_frame {time : Type} `{!Msprime time}
    (a : args) (generation : Z) (self self' : ARGsimplifier time)
    (tracker tracker' : MockAncestryTracker) (rows : Z) :
  Simplifier.simplify a generation self tracker = Ok (self', tracker', rows) →
  samples tracker' = samples tracker ∧
  edges tracker' = edges tracker ∧
  node_id <$> nodes tracker' = node_id <$> nodes tracker ∧
  node_population <$> nodes tracker' = node_population <$> nodes tracker ∧
  Forall (λ n, 0 ≤ node_generation n) (nodes tracker') ∧
  length (anc_samples tracker') = length (anc_samples tracker) ∧
  gc_interval self' = gc_interval self ∧
  last_gc_time self' = last_gc_time self ∧
  rows = Z.of_nat (length (s_nodes self')).
Proof.
  intros (nodes0 & edges0 & node_offset & tracker1 & nodes2 & edges2 &
          nodes3 & edges3 & node_map & anc &
          H0 & H1 & H2 & H3 & H4 & -> & -> & ->)%simplify_Ok.
  simpl.
  assert (nodes tracker ≠ []) as Hne.
  { intros Hnil. unfold Tracker.convert_time in H1.
    by rewrite Hnil in H1. }
  destruct (convert_time_nonnegative_frame tracker Hne)
    as (tracker1' & Hc & Hpos & _ & Hid & Hpop & He & Hs & Ha).
  rewrite H1 in Hc. injection Hc as <-.
  split_and!; try done.
  rewrite <- Ha. by eapply traverse_length.
Qed.

Lemma simplify_frame_witness :
  ∃ self' tracker' rows,
    Simplifier.simplify Example.one_diploid 1 (Simplifier.init 2)
                        Example.buffer = Ok (self', tracker', rows) ∧
    samples tracker' = [2; 3] ∧ length (anc_samples tracker') = 2%nat ∧
    rows = 2.
Proof.
  destruct (Simplifier.simplify Example.one_diploid 1 (Simplifier.init 2)
              Example.buffer) as [[[self' tracker'] rows]|e] eqn:Hs;
    [| vm_compute in Hs; discriminate].
  destruct (simplify_frame Example.one_diploid 1 (Simplifier.init 2) self'
              Example.buffer tracker' rows Hs)
    as (Hsam & _ & _ & _ & _ & Hanc & _ & _ & Hrows).
  exists self', tracker', rows. split; [reflexivity |].
  split; [exact Hsam |]. split; [exact Hanc |].
  vm_compute in Hs. by injection Hs as _ _ <-.
Defined.

(** ** What a generation that returned went through *)

Lemma py_index_Ok_elem {A} (l : list A) (i : Z) (x : A) :
  py_index l i = Ok x → x ∈ l.
Proof.
  unfold py_index. case_decide; [| done].
  destruct (l !! _) as [y|] eqn:Hy; [| done].
  intros [= <-]. by eapply list_elem_of_lookup_2.
Qed.

Lemma py_setitem_Ok {A} (l l' : list A) (i : Z) (x : A) :
  0 ≤ i → py_setitem l i x = Ok l' →
  l' = <[Z.to_nat i := x]> l ∧ i < Z.of_nat (length l).
Proof.
  intros Hi. unfold py_setitem.
  destruct (decide (i < 0)); [lia |].
  case_decide; [| done]. intros [= <-]. split; [done | lia].
Qed.

Section inversion.
Context {time rng : Type} `{!Msprime time} `{!NpRandom rng}.

Lemma mate_Ok (diploids : list Z) (parent1 parent2 : Z) (m m' : mating rng) :
  0 ≤ m_dip m →
  Driver.mate diploids (parent1, parent2) m = Ok m' →
  ∃ e1 e2,
    m_edges m' = m_edges m ++ [e1; e2] ∧
    full_interval e1 ∧ full_interval e2 ∧
    edge_parent e1 ∈ diploids ∧ edge_parent e2 ∈ diploids ∧
    edge_child e1 = m_next_id m ∧ edge_child e2 = m_next_id m + 1 ∧
    m_new_diploids m' =
      <[Z.to_nat (2 * m_dip m + 1) := to_uint32 (m_next_id m + 1)]>
        (<[Z.to_nat (2 * m_dip m) := to_uint32 (m_next_id m)]>
           (m_new_diploids m)) ∧
    2 * m_dip m + 1 < Z.of_nat (length (m_new_diploids m)) ∧
    m_next_id m' = m_next_id m + 2 ∧
    m_dip m' = m_dip m + 1.
Proof.
  intros Hd. unfold Driver.mate. intros H.
  apply bind_Ok in H as (a1 & Ha1%py_index_Ok_elem & H).
  apply bind_Ok in H as (a2 & Ha2%py_index_Ok_elem & H).
  apply bind_Ok in H as (b1 & Hb1%py_index_Ok_elem & H).
  apply bind_Ok in H as (b2 & Hb2%py_index_Ok_elem & H).
  destruct (random_sample2 (m_rng m)) as [[mendel0 mendel1] g].
  destruct (negb (Qle_bool (1 # 2) mendel0));
    destruct (negb (Qle_bool (1 # 2) mendel1));
    (apply bind_Ok in H as (nd1 & Hnd1 & H);
     apply bind_Ok in H as (nd2 & Hnd2 & H);
     apply py_setitem_Ok in Hnd1 as [-> Hlt1]; [| lia];
     apply py_setitem_Ok in Hnd2 as [-> Hlt2]; [| lia];
     rewrite length_insert in Hlt2;
     injection H as <-; simpl; rewrite <- app_assoc;
     do 2 eexists; split; [reflexivity |]; done).
Qed.

Lemma mate_all_Ok (diploids : list Z) (pairs : list (Z * Z))
    (m m' : mating rng) (base : Z) :
  0 ≤ m_dip m →
  m_next_id m = base + 2 * m_dip m →
  take (Z.to_nat (2 * m_dip m)) (m_new_diploids m)
    = to_uint32 <$> seqZ base (2 * m_dip m) →
  Driver.mate_all diploids pairs m = Ok m' →
  ∃ es,
    m_edges m' = m_edges m ++ es ∧
    length es = (2 * length pairs)%nat ∧
    Forall (λ e, full_interval e ∧ edge_parent e ∈ diploids) es ∧
    edge_child <$> es = seqZ (m_next_id m) (2 * Z.of_nat (length pairs)) ∧
    m_dip m' = m_dip m + Z.of_nat (length pairs) ∧
    m_next_id m' = m_next_id m + 2 * Z.of_nat (length pairs) ∧
    length (m_new_diploids m') = length (m_new_diploids m) ∧
    (pairs ≠ [] → 2 * m_dip m' ≤ Z.of_nat (length (m_new_diploids m))) ∧
    take (Z.to_nat (2 * m_dip m')) (m_new_diploids m')
      = to_uint32 <$> seqZ base (2 * m_dip m').
Proof.
  revert m. induction pairs as [|[parent1 parent2] pairs IH];
    intros m Hd Hbase Htake H.
  - injection H as <-. exists []. rewrite app_nil_r, !Z.add_0_r.
    split_and!; try done; by rewrite seqZ_nil.
  - cbn [Driver.mate_all] in H. apply bind_Ok in H as (m1 & Hm1 & H).
    apply mate_Ok in Hm1
      as (e1 & e2 & He & Hf1 & Hf2 & Hp1 & Hp2 & Hc1 & Hc2 & Hnd & Hlt &
          Hid & Hdip); [| done].
    assert (take (Z.to_nat (2 * m_dip m1)) (m_new_diploids m1)
            = to_uint32 <$> seqZ base (2 * m_dip m1)) as Htake1.
    { rewrite Hdip, Hnd.
      replace (Z.to_nat (2 * (m_dip m + 1)))
        with (S (Z.to_nat (2 * m_dip m + 1))) by lia.
      rewrite (take_S_r _ _ (to_uint32 (m_next_id m + 1)))
        by (apply list_lookup_insert_eq; rewrite length_insert; lia).
      rewrite take_insert_ge by lia.
      replace (Z.to_nat (2 * m_dip m + 1))
        with (S (Z.to_nat (2 * m_dip m))) by lia.
      rewrite (take_S_r _ _ (to_uint32 (m_next_id m)))
        by (apply list_lookup_insert_eq; lia).
      rewrite take_insert_ge by lia. rewrite Htake.
      replace (2 * (m_dip m + 1)) with (2 * m_dip m + 2) by lia.
      rewrite (seqZ_app base) by lia. rewrite fmap_app, <- app_assoc.
      f_equal. rewrite (seqZ_cons (base + 2 * m_dip m)) by lia.
      rewrite (seqZ_cons (Z.succ (base + 2 * m_dip m))) by lia.
      rewrite seqZ_nil by lia. rewrite Hbase.
      replace (base + 2 * m_dip m + 1) with (Z.succ (base + 2 * m_dip m))
        by lia.
      done. }
    destruct (IH m1) as (es & Hes & Hlen & Hall & Hch & Hdip' & Hid' &
                         Hnd' & Hle' & Htake');
      [lia | lia | done | done |].
    exists (e1 :: e2 :: es). split_and!.
    + rewrite Hes, He, <- app_assoc. done.
    + simpl. lia.
    + by repeat apply Forall_cons_2.
    + rewrite !fmap_cons, Hch, Hc1, Hc2, Hid.
      rewrite (seqZ_cons (m_next_id m)) by (simpl; lia).
      rewrite (seqZ_cons (Z.succ (m_next_id m))) by (simpl; lia).
      do 3 f_equal; simpl; lia.
    + rewrite Hdip', Hdip. simpl. lia.
    + rewrite Hid', Hid. simpl. lia.
    + rewrite Hnd', Hnd, !length_insert. done.
    + intros _. destruct pairs as [|p pairs].
      * injection H as <-. lia.
      * specialize (Hle' ltac:(done)).
        rewrite Hnd, !length_insert in Hle'. done.
    + done.
Qed.

Lemma offspring_Ok (N gen next_id : Z) (diploids anc : list Z)
    (tracker tracker' : MockAncestryTracker) (g g' : rng)
    (new_diploids : list Z) (next_id' : Z) :
  Driver.offspring N gen next_id diploids anc tracker g
    = Ok (new_diploids, next_id', tracker', g') →
  ∃ parents g1 es,
    0 ≤ 2 * N ∧
    random_randint 0 N (2 * N) g = Ok (parents, g1) ∧
    let k := Z.of_nat (length (zip (evens parents) (odds parents))) in
    next_id' = next_id + 2 * k ∧
    length new_diploids = length diploids ∧
    take (Z.to_nat (2 * k)) new_diploids
      = to_uint32 <$> seqZ next_id (2 * k) ∧
    (0 < k → 2 * k ≤ Z.of_nat (length diploids)) ∧
    length es = Z.to_nat (2 * k) ∧
    Forall (λ e, full_interval e ∧ edge_parent e ∈ diploids) es ∧
    edge_child <$> es = seqZ next_id (2 * k) ∧
    tracker' =
      mk_tracker
        (nodes tracker ++
         ((λ i, mk_node (to_uint32 i) (gen + 1) 0) <$> seqZ next_id (2 * N)))
        (edges tracker ++ (as_edge_dt <$> es)) new_diploids
        (anc_samples tracker ++ anc).
Proof.
  unfold Driver.offspring. intros H.
  destruct (decide (2 * N < 0)); [done |]. rewrite bind_Ok_l in H.
  apply bind_Ok in H as ([parents g1] & Hp & H).
  apply bind_Ok in H as (m & Hm & H). injection H as <- <- <- <-.
  apply (mate_all_Ok _ _ _ _ next_id) in Hm
    as (es & Hes & Hlen & Hall & Hch & Hdip & Hid & Hnd & Hle & Htake);
    [| done | simpl; lia | done].
  simpl in *. rewrite length_replicate in *.
  exists parents, g1, es. rewrite Hdip, Z.add_0_l in Htake.
  split_and!; try done; try lia.
  - intros Hk. rewrite Hdip in Hle. apply Hle.
    intros Hnil. rewrite Hnil in Hk. simpl in Hk. lia.
  - unfold Tracker.update_data, arange_uint32. rewrite Hes. simpl.
    replace (next_id + 2 * N - next_id) with (2 * N) by lia.
    by rewrite <- list_fmap_compose.
Qed.

Lemma generation_Ok (a : args) (N gen : Z) (anc_sample_gen : list (Q * Z))
    (st st' : wf_state time rng) :
  Driver.generation a N anc_sample_gen gen st = Ok st' →
  ∃ self1 tracker1 gc_rv anc counter1 g1 diploids2 next_id2 tracker3 g2,
    Simplifier.call a gen (w_simplifier st) (w_tracker st)
      = Ok (self1, tracker1, gc_rv) ∧
    Driver.scheduled N anc_sample_gen gen (start_id st gc_rv)
                     (ancestral_gen_counter st) (w_rng st)
      = Ok (anc, counter1, g1) ∧
    Driver.offspring N gen (start_id st gc_rv)
        (if gc_rv.1 then arange_uint32 0 (2 * N) else diploids st) anc
        (Tracker.post_gc_cleanup tracker1 gc_rv) g1
      = Ok (diploids2, next_id2, tracker3, g2) ∧
    st' = mk_wf_state diploids2 next_id2 counter1 self1 tracker3 g2.
Proof.
  unfold Driver.generation. intros H.
  apply bind_Ok in H as ([[self1 tracker1] gc_rv] & Hcall & H).
  apply bind_Ok in H as ([next_id1 diploids1] & Hreset & H).
  apply bind_Ok in H as ([[anc counter1] g1] & Hs & H).
  apply bind_Ok in H as ([[[diploids2 next_id2] tracker3] g2] & Ho & H).
  injection H as <-.
  assert (next_id1 = start_id st gc_rv ∧
          diploids1 = if gc_rv.1 then arange_uint32 0 (2 * N)
                      else diploids st) as [-> ->].
  { destruct (call_rv _ _ _ _ _ _ _ Hcall) as [-> | [k ->]];
      simpl in *; by injection Hreset as <- <-. }
  by exists self1, tracker1, gc_rv, anc, counter1, g1, diploids2, next_id2,
            tracker3, g2.
Qed.

End inversion.

(** ** Invariants of the run *)

Section run.
Context {time rng : Type} `{!Msprime time} `{!NpRandom rng}.

(** Induction over the generations of a run. *)
Lemma generations_seqZ_ind (a : args) (N : Z) (anc_sample_gen : list (Q * Z))
    (I : Z → wf_state time rng → Prop) (len : nat) (n0 : Z)
    (st st' : wf_state time rng) :
  I n0 st →
  (∀ gen s s', n0 ≤ gen < n0 + Z.of_nat len → I gen s →
     Driver.generation a N anc_sample_gen gen s = Ok s' → I (gen + 1) s') →
  Driver.generations a N anc_sample_gen (seqZ n0 (Z.of_nat len)) st = Ok st' →
  I (n0 + Z.of_nat len) st'.
Proof.
  revert n0 st. induction len as [|len IH]; intros n0 st HI Hstep H.
  - rewrite seqZ_nil in H by lia. injection H as <-. by rewrite Z.add_0_r.
  - rewrite seqZ_cons in H by lia. cbn [Driver.generations] in H.
    apply bind_Ok in H as (st1 & H1 & H).
    replace (Z.pred (Z.of_nat (S len))) with (Z.of_nat len) in H by lia.
    replace (n0 + Z.of_nat (S len)) with (Z.succ n0 + Z.of_nat len) by lia.
    apply (IH (Z.succ n0) st1); [| | done].
    + replace (Z.succ n0) with (n0 + 1) by lia.
      apply (Hstep n0 st st1); [lia | done | done].
    + intros gen s s' Hgen. apply Hstep. lia.
Qed.

Lemma wf_ind (a : args) (N : Z) (simplifier : ARGsimplifier time)
    (tracker : MockAncestryTracker) (anc_sample_gen : list (Q * Z))
    (ngens : Z) (g : rng) (I : Z → wf_state time rng → Prop)
    (st : wf_state time rng) :
  I 0 (Driver.wf_init N simplifier tracker g) →
  (∀ gen s s', 0 ≤ gen < ngens → I gen s →
     Driver.generation a N anc_sample_gen gen s = Ok s' → I (gen + 1) s') →
  Driver.wf a N simplifier tracker anc_sample_gen ngens g = Ok st →
  I (Z.max 0 ngens) st.
Proof.
  intros H0 Hstep. unfold Driver.wf.
  destruct (decide (ngens ≤ 0)) as [Hle | Hgt].
  - rewrite seqZ_nil by done. intros [= <-].
    by replace (Z.max 0 ngens) with 0 by lia.
  - replace ngens with (Z.of_nat (Z.to_nat ngens)) at 1 by lia. intros H.
    replace (Z.max 0 ngens) with (0 + Z.of_nat (Z.to_nat ngens)) by lia.
    eapply generations_seqZ_ind; [exact H0 | | exact H].
    intros gen s s' Hgen. apply Hstep. lia.
Qed.

Lemma triggers_interval (generation : Z) (self self' : ARGsimplifier time) :
  gc_interval self' = gc_interval self →
  Simplifier.triggers generation self' = Simplifier.triggers generation self.
Proof. unfold Simplifier.triggers. by intros ->. Qed.

(** What [__call__] does to the bookkeeping of the simplifier and to the
    buffer that [post_gc_cleanup] leaves. *)
Lemma call_bookkeeping (a : args) (gen : Z) (self self1 : ARGsimplifier time)
    (tracker tracker1 : MockAncestryTracker) (gc_rv : bool * option Z) :
  Simplifier.call a gen self tracker = Ok (self1, tracker1, gc_rv) →
  gc_interval self1 = gc_interval self ∧
  samples tracker1 = samples tracker ∧
  length (anc_samples tracker1) = length (anc_samples tracker) ∧
  ((gc_rv = (false, None) ∧ self1 = self ∧ tracker1 = tracker) ∨
   (∃ rows, gc_rv = (true, Some rows) ∧
            Simplifier.triggers gen self = Ok true ∧
            last_gc_time self1 = gen ∧
            rows = Z.of_nat (length (s_nodes self1)))).
Proof.
  intros Hcall.
  assert (∃ b, Simplifier.triggers gen self = Ok b ∧ gc_rv.1 = b)
    as (b & Hb & Hrv).
  { unfold Simplifier.call in Hcall.
    apply bind_Ok in Hcall as (b & Hb & Hcall). exists b. split; [done |].
    destruct b.
    - by apply bind_Ok in Hcall as ([[? ?] ?] & _ & [= _ _ <-]).
    - by injection Hcall as _ _ <-. }
  destruct (call_Ok _ _ _ _ _ _ _ Hcall)
    as [(-> & -> & ->) | (self2 & rows & Hs & -> & ->)].
  - split_and!; try done. by left.
  - apply simplify_frame in Hs
      as (Hsam & _ & _ & _ & _ & Hanc & Hgc & _ & Hrows).
    simpl in *. subst b. split_and!; try done. right. by exists rows.
Qed.

End run.

(** X5: Whatever the generator does, a run that returns leaves [2N] chromosome
    ids in [diploids], and after at least one generation the current
    samples of the tracker are these ids. *)
Theorem wf_population_invariant {time rng : Type} `{!Msprime time}
    `{!NpRandom rng} (a : args) (N : Z) (simplifier : ARGsimplifier time)
    (tracker : MockAncestryTracker) (anc_sample_gen : list (Q * Z))
    (ngens : Z) (g : rng) (st : wf_state time rng) :
  Driver.wf a N simplifier tracker anc_sample_gen ngens g = Ok st →
  length (diploids st) = Z.to_nat (2 * N) ∧
  (0 < ngens → samples (w_tracker st) = diploids st).
Proof.
  intros Hwf.
  pose proof (wf_ind a N simplifier tracker anc_sample_gen ngens g
    (λ gen s, length (diploids s) = Z.to_nat (2 * N) ∧
              (0 < gen → samples (w_tracker s) = diploids s)) st) as Hind.
  simpl in Hind. destruct Hind as [Hlen Hsam]; [| | done |].
  - split; [| lia]. unfold arange_uint32.
    rewrite length_fmap, length_seqZ. f_equal. lia.
  - intros gen s s' Hgen [Hlen _] Hs'.
    apply generation_Ok in Hs'
      as (self1 & tracker1 & gc_rv & anc & counter1 & g1 & diploids2 &
          next_id2 & tracker3 & g2 & _ & _ & Ho & ->).
    apply offspring_Ok in Ho
      as (parents & g' & es & _ & _ & _ & Hnd & _ & _ & _ & _ & _ & ->).
    simpl. split; [| done]. rewrite Hnd.
    destruct (gc_rv.1); [| done].
    unfold arange_uint32. rewrite length_fmap, length_seqZ. f_equal. lia.
  - split; [done |]. intros Hn. apply Hsam. lia.
Qed.

Lemma wf_population_invariant_witness :
  ∃ st, Driver.wf Example.one_diploid 1 (Simplifier.init 2) Tracker.init
                  [(2 # 1, 1)] 3 0 = Ok st ∧
        length (diploids st) = 2%nat ∧
        samples (w_tracker st) = diploids st.
Proof.
  destruct (Driver.wf Example.one_diploid 1 (Simplifier.init 2) Tracker.init
              [(2 # 1, 1)] 3 0) as [st|e] eqn:Hwf;
    [| vm_compute in Hwf; discriminate].
  destruct (wf_population_invariant _ _ _ _ _ _ _ _ Hwf) as [Hlen Hsam].
  exists st. split; [reflexivity |]. split; [exact Hlen | apply Hsam; lia].
Defined.

Section bookkeeping.
Context {time rng : Type} `{!Msprime time} `{!NpRandom rng}.

Lemma wf_bookkeeping_invariant (a : args) (N : Z)
    (simplifier : ARGsimplifier time) (tracker : MockAncestryTracker)
    (anc_sample_gen : list (Q * Z)) (ngens : Z) (g : rng)
    (st : wf_state time rng) :
  last_gc_time simplifier ≤ 0 →
  Driver.wf a N simplifier tracker anc_sample_gen ngens g = Ok st →
  gc_interval (w_simplifier st) = gc_interval simplifier ∧
  last_gc_time (w_simplifier st) < Z.max (Z.max 0 ngens) 1 ∧
  (last_gc_time (w_simplifier st) = last_gc_time simplifier ∨
   0 < last_gc_time (w_simplifier st) ∧
   Simplifier.triggers (last_gc_time (w_simplifier st)) simplifier
     = Ok true) ∧
  Forall (λ n, last_gc_time (w_simplifier st) < node_generation n
               ≤ Z.max 0 ngens) (nodes (w_tracker st)).
Proof.
  intros Hlast Hwf.
  apply (wf_ind a N simplifier tracker anc_sample_gen ngens g
    (λ gen s,
       gc_interval (w_simplifier s) = gc_interval simplifier ∧
       last_gc_time (w_simplifier s) < Z.max gen 1 ∧
       (last_gc_time (w_simplifier s) = last_gc_time simplifier ∨
        0 < last_gc_time (w_simplifier s) ∧
        Simplifier.triggers (last_gc_time (w_simplifier s)) simplifier
          = Ok true) ∧
       Forall (λ n, last_gc_time (w_simplifier s) < node_generation n ≤ gen)
              (nodes (w_tracker s))) st); [| | done].
  - simpl. split_and!; [done | lia | by left | constructor].
  - intros gen s s' Hgen (Hgc & Hlt & Hor & Hnodes) Hs'.
    apply generation_Ok in Hs'
      as (self1 & tracker1 & gc_rv & anc & counter1 & g1 & diploids2 &
          next_id2 & tracker3 & g2 & Hcall & _ & Ho & ->).
    apply offspring_Ok in Ho
      as (parents & g' & es & _ & _ & _ & _ & _ & _ & _ & _ & _ & ->).
    simpl.
    apply call_bookkeeping in Hcall
      as (Hgc1 & _ & _ &
          [(-> & -> & ->) | (rows & -> & Htrig & Hl1 & _)]).
    + simpl. split_and!; [done | lia | done |].
      apply Forall_app. split.
      * eapply Forall_impl; [exact Hnodes |]. simpl. lia.
      * rewrite Forall_fmap. apply Forall_forall. intros i _. simpl. lia.
    + simpl. rewrite Hl1. split_and!; [congruence | lia | |].
      * right. split; [| by rewrite <- (triggers_interval gen simplifier _ Hgc)].
        unfold Simplifier.triggers in Htrig.
        destruct (decide (gen > 0)); [lia | done].
      * rewrite Forall_fmap. apply Forall_forall. intros i _. simpl. lia.
Qed.

End bookkeeping.

(** X6: A run never changes the interval of the simplifier, and the time of the
    last collection it leaves is either the one it started with or a
    generation of the run, other than generation 0, at which the condition
    of [__call__] held. *)
Theorem wf_collection_bookkeeping {time rng : Type} `{!Msprime time}
    `{!NpRandom rng} (a : args) (N : Z) (simplifier : ARGsimplifier time)
    (tracker : MockAncestryTracker) (anc_sample_gen : list (Q * Z))
    (ngens : Z) (g : rng) (st : wf_state time rng) :
  last_gc_time simplifier ≤ 0 →
  Driver.wf a N simplifier tracker anc_sample_gen ngens g = Ok st →
  gc_interval (w_simplifier st) = gc_interval simplifier ∧
  (last_gc_time (w_simplifier st) = last_gc_time simplifier ∨
   0 < last_gc_time (w_simplifier st) < ngens ∧
   Simplifier.triggers (last_gc_time (w_simplifier st)) simplifier
     = Ok true).
Proof.
  intros Hlast Hwf.
  destruct (wf_bookkeeping_invariant a N simplifier tracker anc_sample_gen
              ngens g st Hlast Hwf) as (Hgc & Hlt & Hor & _).
  split; [done |]. destruct Hor as [Heq | [Hpos Htrig]]; [by left |].
  right. split; [lia | done].
Qed.

Lemma wf_collection_bookkeeping_witness :
  ∃ st, Driver.wf Example.one_diploid 1 (Simplifier.init 2) Tracker.init
                  [] 4 0 = Ok st ∧
        gc_interval (w_simplifier st) = 2 ∧
        last_gc_time (w_simplifier st) = 2.
Proof.
  destruct (Driver.wf Example.one_diploid 1 (Simplifier.init 2) Tracker.init
              [] 4 0) as [st|e] eqn:Hwf;
    [| vm_compute in Hwf; discriminate].
  destruct (wf_collection_bookkeeping Example.one_diploid 1
              (Simplifier.init 2) Tracker.init [] 4 0 st)
    as [Hgc _]; [simpl; lia | exact Hwf |].
  exists st. split; [reflexivity |]. split; [exact Hgc |].
  vm_compute in Hwf. by injection Hwf as <-.
Defined.

(** X7: When the loop of the driver returns, every buffered node was created
    after the last collection: its forward time lies above the time of the
    last collection and is at most [ngens].  So at the collection that
    follows, at generation [ngens], [convert_time] gives every buffered
    node a backward time below [ngens - last_gc_time], the amount by which
    [simplify] ages the nodes that are already in the table. *)
Theorem wf_buffer_times {time rng : Type} `{!Msprime time}
    `{!NpRandom rng} (a : args) (N : Z) (simplifier : ARGsimplifier time)
    (tracker : MockAncestryTracker) (anc_sample_gen : list (Q * Z))
    (ngens : Z) (g : rng) (st : wf_state time rng) :
  last_gc_time simplifier ≤ 0 → 0 ≤ ngens →
  Driver.wf a N simplifier tracker anc_sample_gen ngens g = Ok st →
  Forall (λ n, last_gc_time (w_simplifier st) < node_generation n ≤ ngens)
         (nodes (w_tracker st)) ∧
  ∀ tracker1,
    Tracker.convert_time (w_tracker st) = Ok tracker1 →
    Forall (λ n, 0 ≤ node_generation n
                 < ngens - last_gc_time (w_simplifier st))
           (nodes tracker1).
Proof.
  intros Hlast Hn Hwf.
  destruct (wf_bookkeeping_invariant a N simplifier tracker anc_sample_gen
              ngens g st Hlast Hwf) as (_ & _ & _ & Hnodes).
  replace (Z.max 0 ngens) with ngens in Hnodes by lia.
  split; [done |]. intros tracker1 Hc.
  assert (nodes (w_tracker st) ≠ []) as Hne.
  { intros Hnil. unfold Tracker.convert_time in Hc. by rewrite Hnil in Hc. }
  destruct (generation_max_is_max _ Hne) as (m & Hm & (n0 & Hn0 & Hn0m) & Hle).
  destruct (convert_time_nodes _ _ _ Hm Hc) as (-> & _).
  rewrite Forall_forall in Hnodes.
  rewrite Forall_fmap. apply Forall_forall. intros n Hin. simpl.
  pose proof (Hle n Hin). pose proof (Hnodes n Hin).
  pose proof (Hnodes n0 Hn0). lia.
Qed.

Lemma wf_buffer_times_witness :
  ∃ st tracker1,
    Driver.wf Example.one_diploid 1 (Simplifier.init 4) Tracker.init
              [] 4 0 = Ok st ∧
    Tracker.convert_time (w_tracker st) = Ok tracker1 ∧
    last_gc_time (w_simplifier st) = 1 ∧
    node_generation <$> nodes (w_tracker st) = [2; 2; 3; 3; 4; 4] ∧
    Forall (λ n, 0 ≤ node_generation n < 4 - 1) (nodes tracker1).
Proof.
  destruct (Driver.wf Example.one_diploid 1 (Simplifier.init 4) Tracker.init
              [] 4 0) as [st|e] eqn:Hwf;
    [| vm_compute in Hwf; discriminate].
  destruct (Tracker.convert_time (w_tracker st)) as [tracker1|e] eqn:Hc;
    [| vm_compute in Hwf; injection Hwf as <-; vm_compute in Hc;
       discriminate].
  destruct (wf_buffer_times Example.one_diploid 1 (Simplifier.init 4)
              Tracker.init [] 4 0 st) as [_ Hconv];
    [simpl; lia | lia | exact Hwf |].
  specialize (Hconv tracker1 Hc).
  exists st, tracker1. split; [reflexivity |]. split; [exact Hc |].
  assert (last_gc_time (w_simplifier st) = 1 ∧
          node_generation <$> nodes (w_tracker st) = [2; 2; 3; 3; 4; 4])
    as [Hl Hg].
  { vm_compute in Hwf. by injection Hwf as <-. }
  split; [exact Hl |]. split; [exact Hg |]. by rewrite Hl in Hconv.
Defined.

(** ** The ids a generation hands out *)

Section new_ids.
Context {time rng : Type} `{!Msprime time} `{!NpRandom rng}.

Lemma offspring_Ok_contract (N gen next_id : Z) (diploids anc : list Z)
    (tracker tracker' : MockAncestryTracker) (g g' : rng)
    (new_diploids : list Z) (next_id' : Z) :
  0 < N → randint_contract rng → length diploids = Z.to_nat (2 * N) →
  Driver.offspring N gen next_id diploids anc tracker g
    = Ok (new_diploids, next_id', tracker', g') →
  ∃ es,
    next_id' = next_id + 2 * N ∧
    new_diploids = to_uint32 <$> seqZ next_id (2 * N) ∧
    length es = Z.to_nat (2 * N) ∧
    Forall (λ e, full_interval e ∧ edge_parent e ∈ diploids) es ∧
    edge_child <$> es = seqZ next_id (2 * N) ∧
    tracker' =
      mk_tracker
        (nodes tracker ++
         ((λ i, mk_node (to_uint32 i) (gen + 1) 0) <$> seqZ next_id (2 * N)))
        (edges tracker ++ (as_edge_dt <$> es)) new_diploids
        (anc_samples tracker ++ anc).
Proof.
  intros HN Hrand Hlen Ho.
  apply offspring_Ok in Ho
    as (parents & g1 & es & _ & Hp & Hid & Hnd & Htake & _ & Hes & Hall &
        Hch & ->).
  destruct (Hrand 0 N (2 * N) g) as (l & g2 & Hl & Hll & Hlr); [lia | lia |].
  rewrite Hp in Hl. injection Hl as <- <-.
  destruct (zip_evens_odds (λ x, 0 ≤ x < N) (Z.to_nat N) parents)
    as [Hzl _]; [lia | done |].
  rewrite Hzl in *.
  replace (2 * Z.of_nat (Z.to_nat N)) with (2 * N) in * by lia.
  rewrite take_ge in Htake by lia.
  exists es. by rewrite Htake.
Qed.

End new_ids.

(** X8: After a generation, the chromosome ids of the living population, the
    current samples of the tracker and the id column of the [2N] nodes the
    generation appended are one and the same list, in the same order: the
    integers from the generation's first id on, as [np.uint32].  When a
    collection ran, the first id is the length of the node table it left. *)
Theorem generation_samples_are_new_ids {time rng : Type} `{!Msprime time}
    `{!NpRandom rng} (a : args) (N gen : Z) (anc_sample_gen : list (Q * Z))
    (st st' : wf_state time rng) :
  0 < N → randint_contract rng →
  length (diploids st) = Z.to_nat (2 * N) →
  Driver.generation a N anc_sample_gen gen st = Ok st' →
  ∃ self1 tracker1 gc_rv new_nodes,
    Simplifier.call a gen (w_simplifier st) (w_tracker st)
      = Ok (self1, tracker1, gc_rv) ∧
    nodes (w_tracker st')
      = nodes (Tracker.post_gc_cleanup tracker1 gc_rv) ++ new_nodes ∧
    diploids st'
      = (λ i, i `mod` 2 ^ 32) <$> seqZ (start_id st gc_rv) (2 * N) ∧
    samples (w_tracker st') = diploids st' ∧
    node_id <$> new_nodes = diploids st' ∧
    Forall (λ n, node_generation n = gen + 1 ∧ node_population n = 0)
           new_nodes ∧
    start_id st gc_rv =
      (if gc_rv.1 then Z.of_nat (length (s_nodes (w_simplifier st')))
       else next_id st).
Proof.
  intros HN Hrand Hlen Hs'.
  apply generation_Ok in Hs'
    as (self1 & tracker1 & gc_rv & anc & counter1 & g1 & diploids2 &
        next_id2 & tracker3 & g2 & Hcall & _ & Ho & ->).
  apply offspring_Ok_contract in Ho
    as (es & -> & -> & _ & _ & _ & ->); [| done | done |].
  - exists self1, tracker1, gc_rv. eexists. split; [exact Hcall |].
    simpl. split_and!; try done.
    + by rewrite <- list_fmap_compose.
    + rewrite Forall_fmap. by apply Forall_forall.
    + apply call_bookkeeping in Hcall
        as (_ & _ & _ & [(-> & _ & _) | (rows & -> & _ & _ & ->)]); done.
  - destruct (gc_rv.1); [| done].
    unfold arange_uint32. rewrite length_fmap, length_seqZ. f_equal. lia.
Qed.

Lemma generation_samples_are_new_ids_witness :
  ∃ st st',
    Driver.wf Example.one_diploid 1 (Simplifier.init 4) Tracker.init [] 2 0
      = Ok st ∧
    Driver.generation Example.one_diploid 1 [] 2 st = Ok st' ∧
    diploids st' = [4; 5] ∧ samples (w_tracker st') = [4; 5].
Proof.
  destruct (Driver.wf Example.one_diploid 1 (Simplifier.init 4) Tracker.init
              [] 2 0) as [st|e] eqn:Hwf;
    [| vm_compute in Hwf; discriminate].
  destruct (Driver.generation Example.one_diploid 1 [] 2 st)
    as [st'|e] eqn:Hgen;
    [| vm_compute in Hwf; injection Hwf as <-; vm_compute in Hgen;
       discriminate].
  destruct (generation_samples_are_new_ids Example.one_diploid 1 2 [] st st')
    as (self1 & tracker1 & gc_rv & new_nodes & _ & _ & _ & Hsam & _);
    [lia | exact Mock_randint_contract | | exact Hgen |].
  { by destruct (wf_population_invariant _ _ _ _ _ _ _ _ Hwf). }
  exists st, st'. split; [reflexivity |]. split; [exact Hgen |].
  rewrite Hsam.
  assert (diploids st' = [4; 5]) as ->; [| done].
  vm_compute in Hwf. injection Hwf as <-.
  vm_compute in Hgen. by injection Hgen as <-.
Defined.

(** X9: The [2N] edges a generation appends have, as children, the ids the
    generation hands out, in order, and as parents only chromosome ids of
    the parental population, both stored as [np.int32]: the edge ends are
    the ids themselves as long as these stay below [2^31], one bit earlier
    than the [np.uint32] ids of the nodes. *)
Theorem generation_edges {time rng : Type} `{!Msprime time}
    `{!NpRandom rng} (a : args) (N gen : Z) (anc_sample_gen : list (Q * Z))
    (st st' : wf_state time rng) :
  0 < N → randint_contract rng →
  length (diploids st) = Z.to_nat (2 * N) →
  Driver.generation a N anc_sample_gen gen st = Ok st' →
  ∃ self1 tracker1 gc_rv new_edges,
    Simplifier.call a gen (w_simplifier st) (w_tracker st)
      = Ok (self1, tracker1, gc_rv) ∧
    let start := start_id st gc_rv in
    let parents :=
      if gc_rv.1 then arange_uint32 0 (2 * N) else diploids st in
    edges (w_tracker st')
      = edges (Tracker.post_gc_cleanup tracker1 gc_rv) ++ new_edges ∧
    length new_edges = Z.to_nat (2 * N) ∧
    Forall full_interval new_edges ∧
    edge_child <$> new_edges = to_int32 <$> seqZ start (2 * N) ∧
    Forall (λ e, ∃ p, p ∈ parents ∧ edge_parent e = to_int32 p) new_edges ∧
    (0 ≤ start → start + 2 * N ≤ 2 ^ 31 →
     edge_child <$> new_edges = seqZ start (2 * N) ∧
     edge_child <$> new_edges = diploids st').
Proof.
  intros HN Hrand Hlen Hs'.
  apply generation_Ok in Hs'
    as (self1 & tracker1 & gc_rv & anc & counter1 & g1 & diploids2 &
        next_id2 & tracker3 & g2 & Hcall & _ & Ho & ->).
  apply offspring_Ok_contract in Ho
    as (es & -> & -> & Hes & Hall & Hch & ->); [| done | done |].
  - exists self1, tracker1, gc_rv, (as_edge_dt <$> es).
    split; [exact Hcall |]. simpl.
    assert (edge_child <$> (as_edge_dt <$> es)
            = to_int32 <$> seqZ (start_id st gc_rv) (2 * N)) as Hch'.
    { by rewrite <- Hch, <- !list_fmap_compose. }
    split_and!; try done.
    + by rewrite length_fmap.
    + rewrite Forall_fmap. eapply Forall_impl; [exact Hall |].
      by intros e [[? ?] _].
    + rewrite Forall_fmap. eapply Forall_impl; [exact Hall |].
      intros e [_ Hp]. by exists (edge_parent e).
    + intros H0 Hmax.
      assert (to_int32 <$> seqZ (start_id st gc_rv) (2 * N)
              = seqZ (start_id st gc_rv) (2 * N)) as Hint.
      { rewrite <- (list_fmap_id (seqZ _ _)) at 2.
        apply list_fmap_ext. intros i x [-> Hi]%lookup_seqZ. simpl.
        unfold to_int32. rewrite Z.mod_small; lia. }
      rewrite Hch', Hint. split; [done |].
      rewrite <- (list_fmap_id (seqZ _ _)) at 1.
      apply list_fmap_ext. intros i x [-> Hi]%lookup_seqZ. simpl.
      unfold to_uint32. rewrite Z.mod_small; lia.
  - destruct (gc_rv.1); [| done].
    unfold arange_uint32. rewrite length_fmap, length_seqZ. f_equal. lia.
Qed.

Lemma generation_edges_witness :
  ∃ st st',
    Driver.wf Example.one_diploid 1 (Simplifier.init 4) Tracker.init [] 2 0
      = Ok st ∧
    Driver.generation Example.one_diploid 1 [] 2 st = Ok st' ∧
    edge_child <$> edges (w_tracker st') = [2; 3; 4; 5].
Proof.
  destruct (Driver.wf Example.one_diploid 1 (Simplifier.init 4) Tracker.init
              [] 2 0) as [st|e] eqn:Hwf;
    [| vm_compute in Hwf; discriminate].
  destruct (Driver.generation Example.one_diploid 1 [] 2 st)
    as [st'|e] eqn:Hgen;
    [| vm_compute in Hwf; injection Hwf as <-; vm_compute in Hgen;
       discriminate].
  destruct (generation_edges Example.one_diploid 1 2 [] st st')
    as (self1 & tracker1 & gc_rv & new_edges & _ & _);
    [lia | exact Mock_randint_contract | | exact Hgen |].
  { by destruct (wf_population_invariant _ _ _ _ _ _ _ _ Hwf). }
  exists st, st'. split; [reflexivity |]. split; [exact Hgen |].
  vm_compute in Hwf. injection Hwf as <-.
  vm_compute in Hgen. by injection Hgen as <-.
Defined.

(** ** The ancestral samples a generation retains *)

Section retained.
Context {time rng : Type} `{!Msprime time} `{!NpRandom rng}.

Lemma scheduled_Ok (N : Z) (anc_sample_gen : list (Q * Z)) (gen next_id : Z)
    (counter counter1 : nat) (g g1 : rng) (anc : list Z) :
  Driver.scheduled N anc_sample_gen gen next_id counter g
    = Ok (anc, counter1, g1) →
  (anc = [] ∧ counter1 = counter ∧ g1 = g ∧
   ∀ when count, anc_sample_gen !! counter = Some (when, count) →
                 ¬ (inject_Z (gen + 1) == when)%Q) ∨
  (∃ when count ran,
     anc_sample_gen !! counter = Some (when, count) ∧
     (inject_Z (gen + 1) == when)%Q ∧
     random_choice N count g = Ok (ran, g1) ∧
     anc = ((λ r, 2 * r + next_id) <$> ran) ++
           ((λ r, 2 * r + 1 + next_id) <$> ran) ∧
     counter1 = S counter).
Proof.
  unfold Driver.scheduled.
  destruct (anc_sample_gen !! counter) as [[when count]|];
    [| intros [= <- <- <-]; by left].
  destruct (Qeq_bool (inject_Z (gen + 1)) when) eqn:Heq.
  - apply Qeq_bool_iff in Heq.
    intros ([ran g'] & Hran & [= <- <- <-])%bind_Ok.
    right. by exists when, count, ran.
  - intros [= <- <- <-]. left. split_and!; try done.
    intros when' count' [= <- <-]. by apply Qeq_bool_neq.
Qed.

End retained.

(** X10: The ancestral samples a generation retains are chromosomes of that very
    generation: when [np.random.choice] keeps its contract, every id drawn
    lies in [[next_id, next_id + 2N)], no id is drawn twice, both
    chromosomes of every retained individual are drawn, and a firing entry
    of count [k] yields [2k] ids and advances the schedule pointer by one.
    When the entry does not fire, nothing is drawn and the generator is not
    consulted. *)
Theorem scheduled_ids_are_new_chromosomes {rng : Type} `{!NpRandom rng}
    (N : Z) (anc_sample_gen : list (Q * Z)) (gen next_id : Z)
    (counter counter1 : nat) (g g1 : rng) (anc : list Z) :
  choice_contract rng →
  Driver.scheduled N anc_sample_gen gen next_id counter g
    = Ok (anc, counter1, g1) →
  Forall (λ x, next_id ≤ x < next_id + 2 * N) anc ∧
  NoDup anc ∧
  (∀ r, 2 * r + next_id ∈ anc ↔ 2 * r + 1 + next_id ∈ anc) ∧
  ((anc = [] ∧ counter1 = counter ∧ g1 = g) ∨
   (∃ when count,
      anc_sample_gen !! counter = Some (when, count) ∧
      (inject_Z (gen + 1) == when)%Q ∧
      length anc = (2 * Z.to_nat count)%nat ∧
      counter1 = S counter)).
Proof.
  intros Hchoice
    [(-> & -> & -> & _) |
     (when & count & ran & Hk & Heq & Hran & -> & ->)]%scheduled_Ok.
  - split_and!; [constructor | constructor | | by left].
    intros r. split; intros []%elem_of_nil.
  - destruct (Hchoice _ _ _ _ _ Hran) as (Hlen & Hrange & Hnd).
    assert (∀ x, x ∈ ((λ r, 2 * r + next_id) <$> ran) ++
                       ((λ r, 2 * r + 1 + next_id) <$> ran) ↔
                   ∃ r, r ∈ ran ∧ (x = 2 * r + next_id ∨
                                    x = 2 * r + 1 + next_id)) as Hin.
    { intros x. rewrite elem_of_app, !list_elem_of_fmap. split.
      - intros [(r & -> & Hr) | (r & -> & Hr)]; exists r; auto.
      - intros (r & Hr & [-> | ->]); [left | right]; by exists r. }
    split_and!.
    + apply Forall_forall. intros x (r & Hr & Hx)%Hin.
      rewrite Forall_forall in Hrange. specialize (Hrange r Hr). lia.
    + apply NoDup_app. split_and!.
      * assert (Inj (=) (=) (λ r, 2 * r + next_id))
          by (intros x y ?; lia).
        by apply (NoDup_fmap_2 _).
      * intros x (r & -> & _)%list_elem_of_fmap
                 (r' & Hr' & _)%list_elem_of_fmap. lia.
      * assert (Inj (=) (=) (λ r, 2 * r + 1 + next_id))
          by (intros x y ?; lia).
        by apply (NoDup_fmap_2 _).
    + intros r. rewrite !Hin. split.
      * intros (r' & Hr' & [? | ?]); [| lia]. exists r'.
        split; [done |]. right. lia.
      * intros (r' & Hr' & [? | ?]); [lia |]. exists r'.
        split; [done |]. left. lia.
    + right. exists when, count. split_and!; try done.
      rewrite length_app, !length_fmap. lia.
Qed.

Lemma scheduled_ids_are_new_chromosomes_witness :
  Driver.scheduled 3 [(5 # 1, 2)] 4 10 0 0 = Ok ([10; 12; 11; 13], 1%nat, 1) ∧
  Forall (λ x, 10 ≤ x < 10 + 2 * 3) [10; 12; 11; 13].
Proof.
  split; [reflexivity |].
  apply (scheduled_ids_are_new_chromosomes 3 [(5 # 1, 2)] 4 10 0 1 0 1
           [10; 12; 11; 13]); [| reflexivity].
  intros n k g l g'. simpl. case_decide as Hnk; [| done].
  intros [= <- <-]. rewrite length_seqZ. split; [done |].
  split; [| apply NoDup_seqZ].
  apply Forall_forall. intros r Hr%elem_of_seqZ. lia.
Defined.



(** ** The schedule of the script *)

Lemma schedule_lookup (a : args) (i : nat) (when : Q) (count : Z) :
  Driver.schedule a !! i = Some (when, count) ↔
  (i < 18)%nat ∧
  when = Qmake (SIMLEN * popsize a * (Z.of_nat i + 1)) 20 ∧
  count = Z.max (Driver.round_div_200 (popsize a)) 1.
Proof.
  unfold Driver.schedule. rewrite list_lookup_fmap.
  destruct (decide (i < 18)%nat) as [Hi | Hi].
  - rewrite lookup_seqZ_lt by (unfold SIMLEN; lia). simpl. split.
    + by intros [= <- <-].
    + by intros (_ & -> & ->).
  - rewrite lookup_seqZ_ge by (unfold SIMLEN; lia). simpl.
    split; [done |]. by intros (? & _).
Qed.

Lemma round_div_200_nearest (p : Z) :
  -100 ≤ p - 200 * Driver.round_div_200 p ≤ 100.
Proof.
  unfold Driver.round_div_200.
  pose proof (Z.div_mod p 200 ltac:(lia)).
  pose proof (Z.mod_pos_bound p 200 ltac:(lia)).
  repeat case_decide; try destruct (Z.even _); lia.
Qed.

(** X12: The schedule the script builds has 18 entries.  Entry [i] asks for
    [max(round(popsize / 200), 1)] individuals, a count that is at least 1,
    is the integer nearest to [popsize / 200] when that is at least 1, and
    never exceeds a positive population size; its generation value is
    [popsize * (i + 1)], which for a positive population size is [gen + 1]
    for a simulated generation [gen]. *)
Theorem schedule_within_run (a : args) :
  length (Driver.schedule a) = 18%nat ∧
  ∀ i when count,
    Driver.schedule a !! i = Some (when, count) →
    (when == inject_Z (popsize a * (Z.of_nat i + 1)))%Q ∧
    1 ≤ count ∧
    (1 < count → -100 ≤ popsize a - 200 * count ≤ 100) ∧
    (1 ≤ popsize a →
     count ≤ popsize a ∧
     0 ≤ popsize a * (Z.of_nat i + 1) - 1 < SIMLEN * popsize a).
Proof.
  split.
  - unfold Driver.schedule. by rewrite length_fmap, length_seqZ.
  - intros i when count (Hi & -> & ->)%schedule_lookup.
    pose proof (round_div_200_nearest (popsize a)) as Hr.
    split_and!.
    + unfold Qeq, inject_Z, SIMLEN. simpl. lia.
    + lia.
    + lia.
    + intros Hp. unfold SIMLEN. split; [lia | nia].
Qed.

Lemma schedule_within_run_witness :
  Driver.schedule (mk_args 500 5 42 100) !! 2%nat = Some (30000 # 20, 2) ∧
  (30000 # 20 == inject_Z (500 * 3))%Q ∧ 2 ≤ 500.
Proof.
  destruct (schedule_within_run (mk_args 500 5 42 100)) as [_ H].
  destruct (H 2%nat (30000 # 20) 2) as (Hq & _ & _ & Hle); [reflexivity |].
  split; [reflexivity |]. split; [exact Hq |].
  destruct Hle as [Hle _]; [simpl; lia | exact Hle].
Defined.

(** X13: For a positive population size the entries of the script's schedule
    fire one after the other, entry [i] in generation
    [popsize * (i + 1) - 1]: after [n] generations of a run that returns,
    the schedule pointer is [n / popsize], capped at 18; after the
    [20 * popsize] generations of the script all 18 entries have fired. *)
Theorem script_schedule_fires_in_order {time rng : Type} `{!Msprime time}
    `{!NpRandom rng} (a : args) (simplifier : ARGsimplifier time)
    (tracker : MockAncestryTracker) (n : Z) (g : rng)
    (st : wf_state time rng) :
  1 ≤ popsize a → 0 ≤ n →
  Driver.wf a (popsize a) simplifier tracker (Driver.schedule a) n g
    = Ok st →
  ancestral_gen_counter st = Z.to_nat (Z.min 18 (n `div` popsize a)) ∧
  (n = SIMLEN * popsize a → ancestral_gen_counter st = 18%nat).
Proof.
  intros Hp Hn Hwf.
  assert (ancestral_gen_counter st
          = Z.to_nat (Z.min 18 (n `div` popsize a))) as Hc.
  { replace n with (Z.max 0 n) by lia.
    apply (wf_ind a (popsize a) simplifier tracker (Driver.schedule a) n g
      (λ gen s, ancestral_gen_counter s
                = Z.to_nat (Z.min 18 (gen `div` popsize a))) st);
      [| | done].
    - simpl. by rewrite Z.div_0_l by lia.
    - intros gen s s' Hgen Hc Hs'.
      apply generation_Ok in Hs'
        as (self1 & tracker1 & gc_rv & anc & counter1 & g1 & diploids2 &
            next_id2 & tracker3 & g2 & _ & Hsched & _ & ->).
      simpl.
      pose proof (Z.div_mod gen (popsize a) ltac:(lia)) as Hdm.
      pose proof (Z.mod_pos_bound gen (popsize a) ltac:(lia)) as Hmb.
      pose proof (Z.div_pos gen (popsize a) ltac:(lia) ltac:(lia)) as Hq0.
      pose proof (Z.div_mod (gen + 1) (popsize a) ltac:(lia)) as Hdm1.
      pose proof (Z.mod_pos_bound (gen + 1) (popsize a) ltac:(lia)) as Hmb1.
      apply scheduled_Ok in Hsched
        as [(_ & -> & _ & Hno) |
            (when & count & ran & Hk & Heq & _ & _ & ->)].
      + rewrite Hc. f_equal.
        destruct (decide (18 ≤ gen `div` popsize a)) as [Hbig | Hsmall].
        * assert (gen `div` popsize a ≤ (gen + 1) `div` popsize a)
            by (apply Z.div_le_mono; lia).
          lia.
        * assert (¬ (inject_Z (gen + 1)
                     == Qmake (SIMLEN * popsize a
                               * (Z.of_nat (ancestral_gen_counter s) + 1))
                              20)%Q) as Hne.
          { eapply Hno. apply schedule_lookup. split_and!; [lia | done..]. }
          unfold Qeq, inject_Z, SIMLEN in Hne. simpl in Hne.
          assert ((gen + 1) `div` popsize a = gen `div` popsize a);
            [| lia].
          rewrite Hc in Hne. nia.
      + apply schedule_lookup in Hk as (Hi & -> & _).
        unfold Qeq, inject_Z, SIMLEN in Heq. simpl in Heq.
        assert ((gen + 1) `div` popsize a = gen `div` popsize a + 1);
          [| lia].
        rewrite Hc in Heq, Hi. nia. }
  split; [done |]. intros ->. rewrite Hc.
  unfold SIMLEN. rewrite Z.div_mul by lia. done.
Qed.

Lemma script_schedule_fires_in_order_witness :
  ∃ st, Driver.wf Example.two_diploids 2 (Simplifier.init 2) Tracker.init
                  (Driver.schedule Example.two_diploids) 40 0 = Ok st ∧
        ancestral_gen_counter st = 18%nat.
Proof.
  destruct (Driver.wf Example.two_diploids 2 (Simplifier.init 2) Tracker.init
              (Driver.schedule Example.two_diploids) 40 0)
    as [st|e] eqn:Hwf; [| vm_compute in Hwf; discriminate].
  exists st. split; [reflexivity |].
  apply (script_schedule_fires_in_order Example.two_diploids
           (Simplifier.init 2) Tracker.init 40 0 st);
    [simpl; lia | lia | exact Hwf | reflexivity].
Defined.

(** X14: With a population size that is not positive the script simulates
    nothing: no generation runs, no founder ancestry is generated, the
    final collection is skipped, and the result is the reduction of the
    empty tables for the samples drawn at the end. *)
Theorem main_without_population {time rng : Type} `{!Msprime time}
    `{!NpRandom rng} (a : args) (ambient : rng) :
  popsize a ≤ 0 →
  Driver.main a ambient =
    '(ran_samples, _) ←
      random_choice (popsize a) (nsam a) (random_seed (seed a));
    simplify_tables
      (merge_sort Z.le (((λ r, 2 * r) <$> ran_samples) ++
                        ((λ r, 2 * r + 1) <$> ran_samples))) [] [].
Proof.
  intros Hp. unfold Driver.main, Driver.wf.
  rewrite seqZ_nil by (unfold SIMLEN; lia).
  cbn [Driver.generations]. rewrite bind_Ok_l.
  unfold Driver.flush. simpl.
  destruct (random_choice _ _ _) as [[ran g1]|e]; [| done].
  rewrite !bind_Ok_l. by rewrite app_nil_r.
Qed.

Lemma main_without_population_witness :
  Driver.main (mk_args 0 1 42 2) 0 = Raise ValueError.
Proof.
  rewrite (main_without_population (mk_args 0 1 42 2) 0) by (simpl; lia).
  reflexivity.
Defined.

(** ** The order of the samples and the renumbering of the population *)

Lemma StronglySorted_filter {A} (R : relation A) (P : A → Prop)
    `{!∀ x, Decision (P x)} (l : list A) :
  StronglySorted R l → StronglySorted R (filter P l).
Proof.
  induction 1 as [|x l Hs IH Hall]; [constructor |].
  rewrite filter_cons. case_decide; [| done].
  constructor; [done |].
  rewrite Forall_forall in Hall |- *.
  intros y [_ Hy]%list_elem_of_filter. by apply Hall.
Qed.

Lemma seqZ_ascending (m n : Z) : StronglySorted Z.lt (seqZ m n).
Proof.
  remember (Z.to_nat n) as k eqn:Hk. revert m n Hk.
  induction k as [|k IH]; intros m n Hk.
  - rewrite seqZ_nil by lia. constructor.
  - rewrite seqZ_cons by lia. constructor; [apply IH; lia |].
    apply Forall_forall. intros x Hx%elem_of_seqZ. lia.
Qed.

Section order.
Context {time : Type} `{!Msprime time}.

Lemma all_samples_split (node_offset : Z) (tracker : MockAncestryTracker)
    (s n : Z) :
  0 ≤ n →
  (∀ y, y ∈ samples tracker ↔ s ≤ y < s + n) →
  Forall (λ y, y < s + n) (anc_samples tracker) →
  offset_in_range node_offset tracker →
  Simplifier.all_samples node_offset tracker =
    ((λ j, s + node_offset + n - 1 - j) <$> seqZ 0 n) ++
    filter (λ x, x < s + node_offset)
           (Simplifier.all_samples node_offset tracker).
Proof.
  intros Hn Hsam Hanc Hrange. symmetry.
  apply StronglySorted_gt_unique; [| apply all_samples_descending |].
  - apply StronglySorted_app. split_and!.
    + intros x1 x2 (j & -> & Hj%elem_of_seqZ)%list_elem_of_fmap
                   [Hx2 _]%list_elem_of_filter. lia.
    + apply (StronglySorted_fmap _ Z.lt); [| apply seqZ_ascending].
      intros x y ?. lia.
    + apply StronglySorted_filter, all_samples_descending.
  - intros x. rewrite elem_of_app, list_elem_of_fmap, list_elem_of_filter,
      elem_of_all_samples_exact by done. split.
    + intros [(j & -> & Hj%elem_of_seqZ) | [_ Hx]]; [| done].
      exists (s + n - 1 - j). split; [| lia]. right. apply Hsam. lia.
    + intros (y & Hy & ->).
      destruct (decide (y + node_offset < s + node_offset)) as [Hlt | Hge].
      { right. split; [done |]. by exists y. }
      left. exists (s + n - 1 - y). split; [lia |].
      apply elem_of_seqZ.
      destruct Hy as [Hy | Hy].
      * rewrite Forall_forall in Hanc. specialize (Hanc y Hy). lia.
      * apply Hsam in Hy. lia.
Qed.

Lemma all_samples_lookup_current (node_offset : Z)
    (tracker : MockAncestryTracker) (s n j : Z) :
  0 ≤ n →
  (∀ y, y ∈ samples tracker ↔ s ≤ y < s + n) →
  Forall (λ y, y < s + n) (anc_samples tracker) →
  offset_in_range node_offset tracker →
  0 ≤ j < n →
  Simplifier.all_samples node_offset tracker !! Z.to_nat j
    = Some (s + node_offset + n - 1 - j).
Proof.
  intros Hn Hsam Hanc Hrange Hj.
  rewrite (all_samples_split node_offset tracker s n Hn Hsam Hanc Hrange).
  rewrite lookup_app_l by (rewrite length_fmap, length_seqZ; lia).
  rewrite list_lookup_fmap, lookup_seqZ_lt by lia. simpl. f_equal. lia.
Qed.

End order.

(** X15: Sorting the samples in descending order puts the current generation
    first, as the comment above the sort says: when the current samples
    are the [n] ids from [s] on, every ancestral sample id is below
    [s + n], and no sum with the node offset leaves [np.uint32] (the offset
    is zero, or every sample id plus the offset lies in [[0, 2^32)]), the
    first [n] entries of the list handed to the reduction are the current
    samples from the largest down, whatever the ancestral samples are and
    whether or not they overlap the current ones. *)
Theorem all_samples_current_first (node_offset : Z)
    (tracker : MockAncestryTracker) (s n : Z) :
  0 ≤ n →
  (∀ y, y ∈ samples tracker ↔ s ≤ y < s + n) →
  Forall (λ y, y < s + n) (anc_samples tracker) →
  offset_in_range node_offset tracker →
  ∀ j, 0 ≤ j < n →
    Simplifier.all_samples node_offset tracker !! Z.to_nat j
      = Some (s + node_offset + n - 1 - j).
Proof.
  intros Hn Hsam Hanc Hrange j Hj. by apply all_samples_lookup_current.
Qed.

Lemma all_samples_current_first_witness :
  Simplifier.all_samples 1
    (mk_tracker [] [] [6; 7; 8; 9] [2; 5; 7; 8]) !! Z.to_nat 3 = Some 7 ∧
  Simplifier.all_samples 1
    (mk_tracker [] [] [6; 7; 8; 9] [2; 5; 7; 8]) = [10; 9; 8; 7; 6; 3].
Proof.
  split; [| reflexivity].
  apply (all_samples_current_first 1
           (mk_tracker [] [] [6; 7; 8; 9] [2; 5; 7; 8]) 6 4);
    [lia | | | | lia].
  - intros y. simpl. rewrite !elem_of_cons, elem_of_nil. lia.
  - simpl. repeat (apply Forall_cons_2; [lia |]). apply Forall_nil_2.
  - right. intros y. simpl. rewrite !elem_of_cons, !elem_of_nil. lia.
Defined.

Lemma position_lookup (all : list Z) (j : nat) (s k : Z) :
  NoDup all → all !! j = Some s →
  Mock.position s all k = k + Z.of_nat j.
Proof.
  revert j k. induction all as [|y all IH]; intros j k Hnd Hj; [done |].
  apply NoDup_cons in Hnd as [Hy Hnd]. simpl.
  destruct j as [|j]; simpl in Hj.
  - injection Hj as ->. rewrite decide_True by done. lia.
  - rewrite decide_False.
    + rewrite (IH j (k + 1)) by done. lia.
    + intros ->. apply Hy. by eapply list_elem_of_lookup_2.
Qed.

Lemma Mock_reduction_contract : reduction_contract Z.
Proof.
  intros all ns es ns' es' node_map Hnd Hred j s Hj. simpl in Hred.
  unfold Mock.reduce in Hred.
  apply bind_Ok in Hred as (rows & Hrows & [= <- <- <-]).
  apply traverse_Ok in Hrows.
  destruct (Forall2_lookup_l _ _ _ _ _ Hrows Hj) as (row & _ & Hrow).
  destruct (decide (0 ≤ s)) as [Hs | ?]; [| done].
  destruct (ns !! Z.to_nat s) as [row'|] eqn:Hns; [| done].
  apply lookup_lt_Some in Hns.
  unfold py_index. rewrite length_fmap, length_seqZ.
  destruct (decide (s < 0)); [lia |].
  rewrite decide_True by lia.
  rewrite list_lookup_fmap, lookup_seqZ_lt by lia. simpl.
  replace (0 + Z.of_nat (Z.to_nat s)) with s by lia.
  by rewrite (position_lookup all j s 0) by done.
Qed.

(** X16: When the reduction numbers its samples by their position, a collection
    renumbers the living population backwards: with the current samples
    the ids [s, ..., s + n - 1], every ancestral sample id below [s + n],
    and no sum with the node offset of the collection leaving [np.uint32]
    (the offset is zero, or every sample id plus the offset lies in
    [[0, 2^32)]), the node map sends the current sample [s + i], shifted by
    the node offset, to [n - 1 - i]; so the ids [0, ..., n - 1] the driver
    resets [diploids] to are the chromosomes of the current population,
    last one first.  When the node offset is zero, every ancestral sample
    is remapped to its own position in the sample list. *)
Theorem collection_renumbers_population {time : Type} `{!Msprime time}
    (a : args) (generation : Z) (self self' : ARGsimplifier time)
    (tracker tracker' : MockAncestryTracker) (rows s n : Z) :
  reduction_contract time → 0 ≤ n →
  (∀ y, y ∈ samples tracker ↔ s ≤ y < s + n) →
  Forall (λ y, y < s + n) (anc_samples tracker) →
  (∀ nodes0 edges0 node_offset,
     Simplifier.aged_tables a generation self
       = Ok (nodes0, edges0, node_offset) →
     offset_in_range node_offset tracker) →
  Simplifier.simplify a generation self tracker = Ok (self', tracker', rows) →
  ∃ nodes0 edges0 node_offset ns es node_map,
    Simplifier.aged_tables a generation self
      = Ok (nodes0, edges0, node_offset) ∧
    simplify_tables (Simplifier.all_samples node_offset tracker) ns es
      = Ok (s_nodes self', s_edges self', node_map) ∧
    (∀ i, 0 ≤ i < n →
       py_index node_map (s + i + node_offset) = Ok (n - 1 - i)) ∧
    (node_offset = 0 →
     Forall2 (λ old new,
                0 ≤ new ∧
                Simplifier.all_samples 0 tracker !! Z.to_nat new = Some old)
             (anc_samples tracker) (anc_samples tracker')).
Proof.
  intros Hred Hn Hsam Hanc Hrange
    (nodes0 & edges0 & node_offset & tracker1 & nodes2 & edges2 &
     nodes3 & edges3 & node_map & anc &
     H0 & H1 & H2 & H3 & H4 & -> & -> & ->)%simplify_Ok.
  specialize (Hrange nodes0 edges0 node_offset H0).
  assert (samples tracker1 = samples tracker ∧
          anc_samples tracker1 = anc_samples tracker) as [Hs1 Ha1].
  { unfold Tracker.convert_time in H1.
    by apply bind_Ok in H1 as (m & _ & [= <-]). }
  assert (Simplifier.all_samples node_offset tracker1
          = Simplifier.all_samples node_offset tracker) as Hall
    by (unfold Simplifier.all_samples; by rewrite Hs1, Ha1).
  rewrite Hall in H3. rewrite Ha1 in H4.
  exists nodes0, edges0, node_offset, nodes2, edges2, node_map.
  split; [done |]. split; [done |]. simpl. split.
  - intros i Hi.
    pose proof (all_samples_lookup_current node_offset tracker s n
                  (n - 1 - i) Hn Hsam Hanc Hrange ltac:(lia)) as Hl.
    replace (s + i + node_offset)
      with (s + node_offset + n - 1 - (n - 1 - i)) by lia.
    rewrite (Hred _ _ _ _ _ _ (NoDup_all_samples _ _) H3 _ _ Hl).
    f_equal. lia.
  - intros ->. apply traverse_Ok in H4.
    apply Forall2_same_length_lookup. split; [by eapply Forall2_length |].
    intros i old new Hold Hnew.
    destruct (Forall2_lookup_l _ _ _ _ _ H4 Hold) as (new' & Hnew' & Hidx).
    rewrite Hnew in Hnew'. injection Hnew' as <-.
    assert (old ∈ Simplifier.all_samples 0 tracker) as Hin.
    { apply elem_of_all_samples_exact; [by left |]. exists old.
      split; [| lia]. left. by eapply list_elem_of_lookup_2. }
    apply list_elem_of_lookup in Hin as [j Hj].
    rewrite (Hred _ _ _ _ _ _ (NoDup_all_samples _ _) H3 _ _ Hj) in Hidx.
    injection Hidx as <-. split; [lia |]. by rewrite Nat2Z.id.
Qed.

Lemma collection_renumbers_population_witness :
  ∃ self' tracker' rows node_map ns es,
    Simplifier.simplify Example.one_diploid 1 (Simplifier.init 2)
                        Example.buffer = Ok (self', tracker', rows) ∧
    simplify_tables (Simplifier.all_samples 1 Example.buffer) ns es
      = Ok (s_nodes self', s_edges self', node_map) ∧
    py_index node_map (2 + 1) = Ok 1 ∧ py_index node_map (3 + 1) = Ok 0.
Proof.
  destruct (Simplifier.simplify Example.one_diploid 1 (Simplifier.init 2)
              Example.buffer) as [[[self' tracker'] rows]|e] eqn:Hs;
    [| vm_compute in Hs; discriminate].
  destruct (collection_renumbers_population Example.one_diploid 1
              (Simplifier.init 2) self' Example.buffer tracker' rows 2 2)
    as (nodes0 & edges0 & node_offset & ns & es & node_map & H0 & H3 &
        Hcur & _); [exact Mock_reduction_contract | lia | | | | exact Hs |].
  { intros y. simpl. rewrite !elem_of_cons, elem_of_nil. lia. }
  { simpl. repeat (apply Forall_cons_2; [lia |]). apply Forall_nil_2. }
  { intros nodes0 edges0 node_offset H0.
    assert (node_offset = 1) as -> by (vm_compute in H0; by injection H0).
    right. intros y. simpl. rewrite !elem_of_cons, !elem_of_nil. lia. }
  assert (node_offset = 1) as -> by (vm_compute in H0; by injection H0).
  exists self', tracker', rows, node_map, ns, es.
  split; [reflexivity |]. split; [exact H3 |].
  split; [apply (Hcur 0) | apply (Hcur 1)]; lia.
Defined.

(** X17: The remap reads a stored null sentinel as an index: for a node map
    that is not empty, an ancestral sample that holds [-1] is replaced by
    the last entry of the node map, and no error is raised for it. *)
Theorem remap_reads_sentinel_as_last_entry (node_map anc anc' : list Z)
    (x : Z) :
  last node_map = Some x →
  py_index node_map (-1) = Ok x ∧
  (traverse (py_index node_map) anc = Ok anc' →
   ∀ i, anc !! i = Some (-1) → anc' !! i = Some x).
Proof.
  intros Hlast.
  assert (py_index node_map (-1) = Ok x) as Hidx.
  { unfold py_index. rewrite last_lookup in Hlast.
    pose proof (lookup_lt_Some _ _ _ Hlast) as Hlt.
    destruct (decide (-1 < 0)); [| lia].
    rewrite decide_True by lia.
    replace (Z.to_nat (-1 + Z.of_nat (length node_map)))
      with (Nat.pred (length node_map)) by lia.
    by rewrite Hlast. }
  split; [done |]. intros Htr%traverse_Ok i Hi.
  destruct (Forall2_lookup_l _ _ _ _ _ Htr Hi) as (y & Hy & Hxy).
  rewrite Hidx in Hxy. by injection Hxy as <-.
Qed.

Lemma remap_reads_sentinel_as_last_entry_witness :
  traverse (py_index [-1; -1; 1; 0; 7]) [-1; 2] = Ok [7; 1].
Proof.
  destruct (remap_reads_sentinel_as_last_entry [-1; -1; 1; 0; 7] [-1; 2]
              [7; 1] 7) as [_ H]; [reflexivity |].
  reflexivity.
Defined.

(** ** The size of the buffer *)

(** X18: The buffer grows by [2N] nodes with every generation and is emptied by
    every collection: when the loop of the driver returns after [ngens]
    generations, started from a simplifier that has not collected yet, the
    buffer holds [2N] nodes for every generation since the last
    collection. *)
Theorem wf_buffer_size {time rng : Type} `{!Msprime time}
    `{!NpRandom rng} (a : args) (N : Z) (simplifier : ARGsimplifier time)
    (tracker : MockAncestryTracker) (anc_sample_gen : list (Q * Z))
    (ngens : Z) (g : rng) (st : wf_state time rng) :
  last_gc_time simplifier = 0 → 0 ≤ ngens →
  Driver.wf a N simplifier tracker anc_sample_gen ngens g = Ok st →
  0 ≤ last_gc_time (w_simplifier st) ≤ ngens ∧
  length (nodes (w_tracker st)) =
    (Z.to_nat (2 * N) * Z.to_nat (ngens - last_gc_time (w_simplifier st)))%nat.
Proof.
  intros Hlast Hn Hwf.
  pose proof (wf_ind a N simplifier tracker anc_sample_gen ngens g
    (λ gen s,
       0 ≤ last_gc_time (w_simplifier s) ≤ gen ∧
       length (nodes (w_tracker s)) =
         (Z.to_nat (2 * N)
          * Z.to_nat (gen - last_gc_time (w_simplifier s)))%nat) st) as Hind.
  simpl in Hind. rewrite Z.max_r in Hind by done.
  apply Hind; [| | done].
  - simpl. rewrite Hlast. split; lia.
  - intros gen s s' Hgen [Hle Hlen] Hs'.
    apply generation_Ok in Hs'
      as (self1 & tracker1 & gc_rv & anc & counter1 & g1 & diploids2 &
          next_id2 & tracker3 & g2 & Hcall & _ & Ho & ->).
    apply offspring_Ok in Ho
      as (parents & g' & es & _ & _ & _ & _ & _ & _ & _ & _ & _ & ->).
    simpl. rewrite length_app, length_fmap, length_seqZ.
    apply call_bookkeeping in Hcall
      as (_ & _ & _ & [(-> & -> & ->) | (rows & -> & _ & Hl1 & _)]).
    + simpl. split; [lia |]. unfold Tracker.post_gc_cleanup. simpl.
      rewrite Hlen. nia.
    + simpl. rewrite Hl1. split; [lia |].
      replace (gen + 1 - gen) with 1 by lia. simpl. lia.
Qed.

Lemma wf_buffer_size_witness :
  ∃ st, Driver.wf Example.one_diploid 1 (Simplifier.init 4) Tracker.init
                  [] 4 0 = Ok st ∧
        length (nodes (w_tracker st)) = 6%nat.
Proof.
  destruct (Driver.wf Example.one_diploid 1 (Simplifier.init 4) Tracker.init
              [] 4 0) as [st|e] eqn:Hwf;
    [| vm_compute in Hwf; discriminate].
  destruct (wf_buffer_size Example.one_diploid 1 (Simplifier.init 4)
              Tracker.init [] 4 0 st) as [_ Hlen];
    [reflexivity | lia | exact Hwf |].
  exists st. split; [reflexivity |]. rewrite Hlen.
  vm_compute in Hwf. by injection Hwf as <-.
Defined.
